(** * amazon-connect-simulator: the flow execution engine

    A shallow embedding of the Go packages [flow], [event], [module],
    [flowtest] and [simulator], and the properties of the specification
    that are stated about them.

    Conventions of the embedding:
    - a Go [string] is a [string] (a sequence of 8-bit characters), a
      [[]byte] is a [list byte];
    - a Go [map[K]V] is a [gmap K V];
    - a Go pointer result that may be [nil] ([*flow.ModuleID], [*string])
      is an [option];
    - an [interface{}] holding decoded JSON is a [JSON] value;
    - a Go [error] is an [option error] ([None] is [nil]);
    - a method with a pointer receiver that mutates its receiver takes the
      receiver's value and returns the new one (explicit state passing);
    - a failed single-value type assertion [x.(T)] is a run-time panic,
      which the embedding makes explicit in the result type. *)

From Stdlib Require Import ZArith Ascii String Strings.Byte List Lia.
From stdpp Require Import base option strings gmap list.
From Equations Require Import Equations.

Local Open Scope string_scope.
Local Open Scope list_scope.
Local Open Scope nat_scope.

(** ** Package [flow] *)

Module flow.

(** [ModuleID], [ModuleType], [ModuleTarget], [ModuleBranchCondition],
    [ModuleBranchConditionType], [ModuleParameterNamespace] and [SystemKey]
    are all declared as [string] in the source. *)
Abbreviation ModuleID := string (only parsing).
Abbreviation ModuleType := string (only parsing).
Abbreviation ModuleTarget := string (only parsing).
Abbreviation ModuleBranchCondition := string (only parsing).
Abbreviation ModuleBranchConditionType := string (only parsing).
Abbreviation ModuleParameterNamespace := string (only parsing).
Abbreviation SystemKey := string (only parsing).

(** Known types of block. *)
Definition ModuleStoreUserInput : ModuleType := "StoreUserInput".
Definition ModuleCheckAttribute : ModuleType := "CheckAttribute".
Definition ModuleTransfer : ModuleType := "Transfer".
Definition ModulePlayPrompt : ModuleType := "PlayPrompt".
Definition ModuleDisconnect : ModuleType := "Disconnect".
Definition ModuleSetQueue : ModuleType := "SetQueue".
Definition ModuleGetUserInput : ModuleType := "GetUserInput".
Definition ModuleSetAttributes : ModuleType := "SetAttributes".
Definition ModuleInvokeExternalResource : ModuleType := "InvokeExternalResource".
Definition ModuleCheckHoursOfOperation : ModuleType := "CheckHoursOfOperation".
Definition ModuleSetVoice : ModuleType := "SetVoice".

(** Known types of block no longer in use in new flows. *)
Definition ModuleDeprecatedSetScreenPop : ModuleType := "SetScreenPop".
Definition ModuleDeprecatedStoreCustomerInput : ModuleType := "StoreCustomerInput".
Definition ModuleDeprecatedPlayAudio : ModuleType := "PlayAudio".
Definition ModuleDeprecatedTransferToFlow : ModuleType := "TransferToFlow".
Definition ModuleDeprecatedCustomerInQueue : ModuleType := "CustomerInQueue".

(** Values used in the module's target field. *)
Definition TargetFlow : ModuleTarget := "Flow".
Definition TargetLambda : ModuleTarget := "Lambda".
Definition TargetQueue : ModuleTarget := "Queue".
Definition TargetDigits : ModuleTarget := "Digits".
Definition TargetPhoneNumber : ModuleTarget := "PhoneNumber".

(** The three places you can look up a dynamic value. *)
Definition NamespaceExternal : ModuleParameterNamespace := "External".
Definition NamespaceSystem : ModuleParameterNamespace := "System".
Definition NamespaceUserDefined : ModuleParameterNamespace := "User Defined".

(** Known named reasons for choosing an output of a block. *)
Definition BranchSuccess : ModuleBranchCondition := "Success".
Definition BranchError : ModuleBranchCondition := "Error".
Definition BranchNoMatch : ModuleBranchCondition := "NoMatch".
Definition BranchEvaluate : ModuleBranchCondition := "Evaluate".
Definition BranchTimeout : ModuleBranchCondition := "Timeout".
Definition BranchTrue : ModuleBranchCondition := "True".
Definition BranchFalse : ModuleBranchCondition := "False".
Definition BranchAtCapacity : ModuleBranchCondition := "AtCapacity".

(** Values that can be dynamically looked up from the Connect system
    (the keys the embedded code uses). *)
Definition SystemLastUserInput : SystemKey := "Stored customer input".
Definition SystemQueueName : SystemKey := "Queue.Name".
Definition SystemQueueARN : SystemKey := "Queue.ARN".

(** A value held in an [interface{}] after [encoding/json] decoding.
    JSON numbers decode to [float64]; the flows carry integral numbers
    (digit counts), which are represented here by their integer value. *)
#[warnings="-register-all"] Inductive JSON : Type :=
| JNull
| JBool (b : bool)
| JNumber (n : Z)
| JString (s : string)
| JArray (l : list JSON)
| JObject (fields : list (string * JSON)).

(** [ModuleBranch] is a single output of a block and the data required to
    choose it. *)
Record ModuleBranch : Type := {
  Condition : ModuleBranchCondition;
  ConditionType : ModuleBranchConditionType;
  ConditionValue : JSON;
  Transition : ModuleID
}.

Abbreviation ModuleBranchList := (list ModuleBranch) (only parsing).

(** [ModuleParameter] is a single parameter configuring a block. *)
Record ModuleParameter : Type := {
  Name : string;
  Key : string;
  Value : JSON;
  Namespace : option ModuleParameterNamespace;
  ResourceName : string
}.

Abbreviation ModuleParameterList := (list ModuleParameter) (only parsing).

(** The zero value [ModuleParameter{}]. *)
Definition ModuleParameter_zero : ModuleParameter :=
  {| Name := ""; Key := ""; Value := JNull; Namespace := None;
     ResourceName := "" |}.

(** [Module_] holds data about a single block in the flow ([Module] in the
    source; the metadata is kept as raw JSON text). *)
Record Module_ : Type := {
  ID : ModuleID;
  Type_ : ModuleType;
  Branches : ModuleBranchList;
  Parameters : ModuleParameterList;
  Metadata : string;
  Target : ModuleTarget
}.

(** [Flow] is the base of the structure of an exported flow (the flow's
    metadata is reduced to its [Name], the only field the code reads). *)
Record Flow : Type := {
  Modules : list Module_;
  Start : ModuleID;
  MetadataName : string
}.

(** [GetLink] gets the ID of the block linked to by the output with name:
    the loop returns at the first branch whose condition is [named]. *)
Fixpoint GetLink (mbl : ModuleBranchList) (named : ModuleBranchCondition)
  : option ModuleID :=
  match mbl with
  | [] => None
  | p :: rest =>
      if decide (Condition p = named) then Some (Transition p)
      else GetLink rest named
  end.

(** [ModuleBranchList.List] gets the branches which have the given name. *)
Fixpoint BranchList_List (mbl : ModuleBranchList) (named : ModuleBranchCondition)
  : list ModuleBranch :=
  match mbl with
  | [] => []
  | b :: rest =>
      if decide (Condition b = named) then b :: BranchList_List rest named
      else BranchList_List rest named
  end.

(** [Get] gets a single parameter with the given name, and whether there
    is one. *)
Fixpoint Get (mpl : ModuleParameterList) (named : string)
  : ModuleParameter * bool :=
  match mpl with
  | [] => (ModuleParameter_zero, false)
  | p :: rest =>
      if decide (Name p = named) then (p, true) else Get rest named
  end.

(** [ModuleParameterList.List] gets the parameters with the given name. *)
Fixpoint ParameterList_List (mpl : ModuleParameterList) (named : string)
  : list ModuleParameter :=
  match mpl with
  | [] => []
  | p :: rest =>
      if decide (Name p = named) then p :: ParameterList_List rest named
      else ParameterList_List rest named
  end.

End flow.

Import flow.

(** ** Package [event] *)

Module event.

(** Modelled from the spec: the kinds of event.  The declarations of
    package [event] are not part of the sources at hand; an event is "a
    typed, immutable record of an observable outcome (queue transfer, flow
    transfer, number transfer, etc.)".  [OtherType] stands for the kinds
    behind the "etc.", none of which is a transfer. *)
Inductive EventType : Type :=
| TransferQueueType
| TransferFlowType
| TransferNumberType
| OtherType (kind : string).

#[global] Instance EventType_eq_dec : EqDecision EventType.
Proof. solve_decision. Defined.

(** Modelled from the spec: the event records, "each carrying the minimal
    data needed to assert on it (destination name/identifier)"; the field
    names are the ones the callers in [module] and [flowtest] use. *)
Inductive Event : Type :=
| QueueTransferEvent (QueueARN QueueName : string)
| FlowTransferEvent (FlowARN FlowName : string)
| NumberTransferEvent (Tel : string)
| OtherEvent (kind : string).

(** Modelled from the spec: the method [Type()] of an event, its kind. *)
Definition Type_ (evt : Event) : EventType :=
  match evt with
  | QueueTransferEvent _ _ => TransferQueueType
  | FlowTransferEvent _ _ => TransferFlowType
  | NumberTransferEvent _ => TransferNumberType
  | OtherEvent kind => OtherType kind
  end.

End event.

Import event.

(** ** Go values shared by the packages *)

(** An [error] value: [errors.New] and [fmt.Errorf] build an error that
    carries its message; [strconv] reports a [*strconv.NumError] with the
    failing function, the input and the cause. *)
Inductive error : Type :=
| errorString (s : string)
| NumError (Func Num : string) (Err : error).

(** [strconv.ErrSyntax] and [strconv.ErrRange]. *)
Definition ErrSyntax : error := errorString "invalid syntax".
Definition ErrRange : error := errorString "value out of range".

(** What a call of a runner's [Run] does: it returns, leaving the call in
    state [st], with a next block (or [nil]) and an error (or [nil]); or a
    single-value type assertion fails and the goroutine panics. *)
Inductive outcome (St : Type) : Type :=
| Returns (st : St) (next : option flow.ModuleID) (err : option error)
| Panics.
Arguments Returns {St} st next err.
Arguments Panics {St}.

(** The comma-ok type assertions [v.(bool)] and [v.(string)]. *)
Definition as_bool (v : JSON) : option bool :=
  match v with JBool b => Some b | _ => None end.

Definition as_string (v : JSON) : option string :=
  match v with JString s => Some s | _ => None end.

(** [time.Duration] is an [int64] count of nanoseconds. *)
Abbreviation Duration := Z (only parsing).
Definition Second : Duration := 1000000000%Z.

(** Two's complement wrap-around of [int64] arithmetic. *)
Definition int64_wrap (z : Z) : Z :=
  ((z + 2 ^ 63) mod 2 ^ 64 - 2 ^ 63)%Z.

(** ** Package [module]: the connector *)

(** The capability set a runner needs from its hosting call (interface
    [CallConnector]); the methods listed are the ones the runners embedded
    below call.  [call] is the connector's state before the call. *)
Class CallConnector (St : Type) : Type := {
  Send : string → bool → St → St;
  Receive : Z → Duration → ascii → St → St * (string * bool);
  GetExternal : string → St → option string;
  GetContactData : string → St → option string;
  SetContactData : string → string → St → St;
  GetSystem : flow.SystemKey → St → option string;
  SetSystem : flow.SystemKey → string → St → St;
  GetFlowStart : string → St → option flow.ModuleID;
  Emit : Event → St → St;
  Encrypt : string → string → list byte → St → list byte
}.

(** [testCallState] is the connector of the package's tests.  Its fields
    for lambda invocation and the hours check are left out (no runner
    embedded here reaches them), [rcv] is flattened, and the [encrypt]
    hook is a function (a test that leaves it [nil] never calls it). *)
Record testCallState : Type := {
  i : string;
  o : string;
  oSSML : bool;
  rcv_count : Z;
  rcv_timeout : Duration;
  rcv_terminator : ascii;
  encrypt : string → string → list byte → list byte;
  external : gmap string string;
  contactData : gmap string string;
  system : gmap string string;
  flowStart : gmap string string;
  events : list Event
}.

Definition testCallState_Send (s : string) (ssml : bool) (st : testCallState)
  : testCallState :=
  {| i := i st; o := s; oSSML := ssml;
     rcv_count := rcv_count st; rcv_timeout := rcv_timeout st;
     rcv_terminator := rcv_terminator st; encrypt := encrypt st;
     external := external st; contactData := contactData st;
     system := system st; flowStart := flowStart st; events := events st |}.

Definition testCallState_Receive (count : Z) (timeout : Duration)
    (terminator : ascii) (st : testCallState)
  : testCallState * (string * bool) :=
  let st' :=
    {| i := i st; o := o st; oSSML := oSSML st;
       rcv_count := count; rcv_timeout := timeout;
       rcv_terminator := terminator; encrypt := encrypt st;
       external := external st; contactData := contactData st;
       system := system st; flowStart := flowStart st; events := events st |} in
  if decide (i st = "") then (st', ("", false))
  else (st', (i st, bool_decide (i st ≠ "Timeout"))).

Definition testCallState_GetExternal (key : string) (st : testCallState)
  : option string := external st !! key.

Definition testCallState_GetContactData (key : string) (st : testCallState)
  : option string := contactData st !! key.

Definition testCallState_SetContactData (key value : string)
    (st : testCallState) : testCallState :=
  {| i := i st; o := o st; oSSML := oSSML st;
     rcv_count := rcv_count st; rcv_timeout := rcv_timeout st;
     rcv_terminator := rcv_terminator st; encrypt := encrypt st;
     external := external st; contactData := <[key := value]> (contactData st);
     system := system st; flowStart := flowStart st; events := events st |}.

Definition testCallState_GetSystem (key : flow.SystemKey) (st : testCallState)
  : option string := system st !! key.

Definition testCallState_SetSystem (key : flow.SystemKey) (value : string)
    (st : testCallState) : testCallState :=
  {| i := i st; o := o st; oSSML := oSSML st;
     rcv_count := rcv_count st; rcv_timeout := rcv_timeout st;
     rcv_terminator := rcv_terminator st; encrypt := encrypt st;
     external := external st; contactData := contactData st;
     system := <[key := value]> (system st);
     flowStart := flowStart st; events := events st |}.

(** [r := st.flowStart[flowName]]: a missing key reads as the empty
    string, and the empty string gives [nil]. *)
Definition testCallState_GetFlowStart (flowName : string) (st : testCallState)
  : option flow.ModuleID :=
  let r := default "" (flowStart st !! flowName) in
  if decide (r = "") then None else Some r.

Definition testCallState_Emit (evt : Event) (st : testCallState)
  : testCallState :=
  {| i := i st; o := o st; oSSML := oSSML st;
     rcv_count := rcv_count st; rcv_timeout := rcv_timeout st;
     rcv_terminator := rcv_terminator st; encrypt := encrypt st;
     external := external st; contactData := contactData st;
     system := system st; flowStart := flowStart st;
     events := events st ++ [evt] |}.

Definition testCallState_Encrypt (input keyID : string) (cert : list byte)
    (st : testCallState) : list byte :=
  encrypt st input keyID cert.

#[global] Instance testCallState_CallConnector : CallConnector testCallState := {
  Send := testCallState_Send;
  Receive := testCallState_Receive;
  GetExternal := testCallState_GetExternal;
  GetContactData := testCallState_GetContactData;
  SetContactData := testCallState_SetContactData;
  GetSystem := testCallState_GetSystem;
  SetSystem := testCallState_SetSystem;
  GetFlowStart := testCallState_GetFlowStart;
  Emit := testCallState_Emit;
  Encrypt := testCallState_Encrypt
}.

(** The state [testCallState{}.init()] starts from: empty maps, no events
    (the hook, left [nil] by the tests that do not encrypt, is the
    identity here). *)
Definition testCallState_init : testCallState :=
  {| i := ""; o := ""; oSSML := false;
     rcv_count := 0; rcv_timeout := 0; rcv_terminator := "000"%char;
     encrypt := λ input _ _, list_byte_of_string input;
     external := ∅; contactData := ∅; system := ∅; flowStart := ∅;
     events := [] |}.

(** ** Package [module]: the runners *)

Section runners.
Context {St : Type} `{!CallConnector St}.


(** [setQueue.Run]; [p.Value.(string)] panics on a value that is not a
    string, before the first [SetSystem]. *)
Definition setQueue_Run (m : Module_) (call : St) : outcome St :=
  if decide (flow.Type_ m ≠ ModuleSetQueue) then
    Returns call None
      (Some (errorString
         ("module of type " +:+ flow.Type_ m +:+ " being run as setQueue")))
  else
    let '(p, ok) := Get (Parameters m) "Queue" in
    if negb ok then
      Returns call None (Some (errorString "missing Queue parameter"))
    else
      match Value p with
      | JString arn =>
          let call := SetSystem SystemQueueARN arn call in
          let call := SetSystem SystemQueueName (ResourceName p) call in
          Returns call (GetLink (Branches m) BranchSuccess) None
      | _ => Panics
      end.

(** [transfer.Run], the version written against [CallConnector].  (The
    sources also hold an earlier version written against [*call.Context],
    which reads [Get] as single-valued and so predates [flow.go] as
    given.) *)
Definition transfer_Run (m : Module_) (call : St) : outcome St :=
  if decide (flow.Type_ m ≠ ModuleTransfer) then
    Returns call None
      (Some (errorString
         ("module of type " +:+ flow.Type_ m +:+ " being run as transfer")))
  else if decide (Target m = TargetFlow) then
    let '(cfid, ok) := Get (Parameters m) "ContactFlowId" in
    if negb ok then
      Returns call None (Some (errorString "missing ContactFlowId parameter"))
    else
      match GetFlowStart (ResourceName cfid) call with
      | None => Returns call (GetLink (Branches m) BranchError) None
      | Some next =>
          match Value cfid with
          | JString arn =>
              Returns (Emit (FlowTransferEvent arn (ResourceName cfid)) call)
                (Some next) None
          | _ => Panics
          end
      end
  else if decide (Target m = TargetQueue) then
    let queue := GetSystem SystemQueueName call in
    let arn := GetSystem SystemQueueARN call in
    match queue, arn with
    | Some queue, Some arn =>
        Returns (Emit (QueueTransferEvent arn queue) call) None None
    | _, _ => Returns call (GetLink (Branches m) BranchError) None
    end
  else if decide (Target m = TargetPhoneNumber) then
    let '(blind, ok) := Get (Parameters m) "BlindTransfer" in
    match ok, as_bool (Value blind) with
    | true, Some blind =>
        let '(num, ok) := Get (Parameters m) "PhoneNumber" in
        match ok, as_string (Value num) with
        | true, Some tel =>
            let call := Emit (NumberTransferEvent tel) call in
            if blind then Returns call None None
            else Returns call (GetLink (Branches m) BranchSuccess) None
        | _, _ =>
            Returns call None
              (Some (errorString "missing PhoneNumber parameter"))
        end
    | _, _ =>
        Returns call None (Some (errorString "missing BlindTransfer parameter"))
    end
  else
    Returns call None
      (Some (errorString ("unhandled transfer target: " +:+ Target m))).

End runners.

(** [call.KeyValue], a decoded key-value parameter. *)
Record KeyValue : Type := { K : string; V : string }.

(** [call.Context], the call a runner of the earlier interface runs
    against.  Package [call] is not part of the sources at hand: the
    context is reduced to the attribute store that [setAttributes]
    writes. *)
Record Context : Type := { ContactData : gmap string string }.

Section setAttributes.
Variable UnmarshalParameters :
  Context → ModuleParameterList → option error * list KeyValue.

(** [setAttributes.Run], written against [*call.Context]; the decoding of
    the parameter list, [ctx.UnmarshalParameters], is a parameter, giving
    the error and the decoded [Attribute] pairs. *)
Definition setAttributes_Run (m : Module_) (ctx : Context) : outcome Context :=
  if decide (flow.Type_ m ≠ ModuleSetAttributes) then
    Returns ctx None
      (Some (errorString
         ("module of type " +:+ flow.Type_ m +:+ " being run as setAttributes")))
  else
    match UnmarshalParameters ctx (Parameters m) with
    | (Some err, _) => Returns ctx None (Some err)
    | (None, Attribute) =>
        let ctx :=
          foldl (λ ctx a, {| ContactData := <[K a := V a]> (ContactData ctx) |})
            ctx Attribute in
        Returns ctx (GetLink (Branches m) BranchSuccess) None
    end.

End setAttributes.

(** ** Go library functions the runners call *)

(** The value of a decimal digit. *)
Definition digit_value (c : ascii) : option Z :=
  let n := Z.of_N (N_of_ascii c) in
  if ((48 <=? n) && (n <=? 57))%Z then Some (n - 48)%Z else None.

(** The number a string of decimal digits denotes, continuing [acc]. *)
Fixpoint parse_digits (acc : Z) (s : string) : option Z :=
  match s with
  | EmptyString => Some acc
  | String c rest =>
      match digit_value c with
      | Some d => parse_digits (10 * acc + d)%Z rest
      | None => None
      end
  end.

(** [strconv.Atoi]: an optional sign, then one or more decimal digits; the
    result must fit an [int] (64 bits). *)
Definition Atoi (s : string) : Z + error :=
  let '(neg, digits) :=
    match s with
    | String "-" rest => (true, rest)
    | String "+" rest => (false, rest)
    | _ => (false, s)
    end in
  match digits with
  | EmptyString => inr (NumError "Atoi" s ErrSyntax)
  | _ =>
      match parse_digits 0 digits with
      | None => inr (NumError "Atoi" s ErrSyntax)
      | Some n =>
          let v := if neg then (- n)%Z else n in
          if ((v <? - 2 ^ 63) || (2 ^ 63 - 1 <? v))%Z
          then inr (NumError "Atoi" s ErrRange)
          else inl v
      end
  end.

(** The alphabet of [base64.StdEncoding]. *)
Definition encodeStd : string :=
  "ABCDEFGHIJKLMNOPQRSTUVWXYZabcdefghijklmnopqrstuvwxyz0123456789+/".

(** [enc.encode[n]], for a six-bit [n]. *)
Definition encodeStd_char (n : Z) : ascii :=
  default "="%char (String.get (Z.to_nat n) encodeStd).

(** [uint(b)] *)
Definition byte_val (b : byte) : Z := Z.of_N (Byte.to_N b).

(** [base64.StdEncoding.EncodeToString]: three bytes give four characters
    of the standard alphabet; a last group of one or two bytes is padded
    with [=]. *)
Fixpoint EncodeToString (src : list byte) : string :=
  match src with
  | [] => ""
  | [b0] =>
      let val := Z.shiftl (byte_val b0) 16 in
      String (encodeStd_char (Z.land (Z.shiftr val 18) 63))
        (String (encodeStd_char (Z.land (Z.shiftr val 12) 63)) "==")
  | [b0; b1] =>
      let val := Z.lor (Z.shiftl (byte_val b0) 16) (Z.shiftl (byte_val b1) 8) in
      String (encodeStd_char (Z.land (Z.shiftr val 18) 63))
        (String (encodeStd_char (Z.land (Z.shiftr val 12) 63))
           (String (encodeStd_char (Z.land (Z.shiftr val 6) 63)) "="))
  | b0 :: b1 :: b2 :: rest =>
      let val :=
        Z.lor (Z.lor (Z.shiftl (byte_val b0) 16) (Z.shiftl (byte_val b1) 8))
          (byte_val b2) in
      String (encodeStd_char (Z.land (Z.shiftr val 18) 63))
        (String (encodeStd_char (Z.land (Z.shiftr val 12) 63))
           (String (encodeStd_char (Z.land (Z.shiftr val 6) 63))
              (String (encodeStd_char (Z.land val 63)) (EncodeToString rest))))
  end.

(** ** Package [module]: the parameter resolver *)

(** Modelled from the spec: the inline template substitution of the
    parameter resolver, which is not part of the sources at hand.  "Any
    text value may contain embedded references of the form
    [$.<Namespace>.<key>]; the resolver scans the text for all such
    references and replaces each with the looked-up value from the
    matching namespace store, leaving the reference literally in place if
    the key is not found."  The spec does not fix which characters a
    namespace and a key are made of, nor the stores: they are the
    parameters [is_namespace_char], [is_key_char] and [lookup]. *)
Section TemplateSubstitution.
Variables is_namespace_char is_key_char : ascii → bool.
Variable lookup : string → string → option string.

(** The longest prefix of [s] made of characters accepted by [p], and the
    rest of [s]. *)
Fixpoint span (p : ascii → bool) (s : string) : string * string :=
  match s with
  | EmptyString => (EmptyString, EmptyString)
  | String c rest =>
      if p c then let '(tok, after) := span p rest in (String c tok, after)
      else (EmptyString, s)
  end.

(** Modelled from the spec: the reference [$.<Namespace>.<key>] that [s]
    starts with, if any: its namespace, its key and the text after it. *)
Definition reference_at (s : string) : option (string * string * string) :=
  match s with
  | String "$" (String "." s1) =>
      match span is_namespace_char s1 with
      | (String n ns, String "." s2) =>
          match span is_key_char s2 with
          | (String k key, after) => Some (String n ns, String k key, after)
          | _ => None
          end
      | _ => None
      end
  | _ => None
  end.

(** Modelled from the spec: the literal text of a reference. *)
Definition reference_text (ns key : string) : string :=
  "$." +:+ ns +:+ "." +:+ key.

Lemma span_length p s : String.length (span p s).2 ≤ String.length s.
Proof.
  induction s as [|c s IH]; simpl; [lia|].
  destruct (p c); [|simpl; lia].
  destruct (span p s) as [tok after]; simpl in *; lia.
Qed.

Lemma reference_at_length s ns key after :
  reference_at s = Some (ns, key, after) →
  String.length after < String.length s.
Proof.
  unfold reference_at. intros Href.
  repeat (case_match; try discriminate); subst.
  injection Href as <- <- <-.
  repeat match goal with
  | H : span ?p ?s = _ |- _ =>
      let Hlen := fresh "Hlen" in
      pose proof (span_length p s) as Hlen; rewrite H in Hlen; clear H
  end.
  simpl in *. lia.
Qed.

(** A value together with the equation that names it, for the scan below
    to remember which reference it found. *)
Definition inspect {A : Type} (a : A) : {b : A | a = b} := exist _ a eq_refl.

(** Modelled from the spec: the scan of the text.  At a reference, its
    value (or its own text when the lookup misses) is emitted and the scan
    goes on after it; any other character is copied. *)
Equations? jsonPath (text : string) : string by wf (String.length text) lt :=
  jsonPath EmptyString := EmptyString;
  jsonPath (String c rest) with inspect (reference_at (String c rest)) := {
    | exist _ (Some (ns, key, after)) Href =>
        match lookup ns key with
        | Some value => value
        | None => reference_text ns key
        end +:+ jsonPath after;
    | exist _ None _ => String c (jsonPath rest) }.
Proof.
  exact (reference_at_length (String c rest) ns key after Href).
Qed.

End TemplateSubstitution.

(** Modelled from the spec: the stores behind the three namespaces, "an
    explicit three-way dispatch over a fixed enumeration
    (External/System/UserDefined) backed by key-value stores with simple
    get/set".  The resolver itself is not part of the sources at hand. *)
Definition lookup_namespace {St : Type} `{!CallConnector St} (call : St)
    (ns : ModuleParameterNamespace) (key : string) : option string :=
  if decide (ns = NamespaceExternal) then GetExternal key call
  else if decide (ns = NamespaceSystem) then GetSystem key call
  else if decide (ns = NamespaceUserDefined) then GetContactData key call
  else None.

(** Modelled from the spec: resolution of one parameter.  Without a
    namespace the raw value is returned unchanged; with a namespace the
    raw value is a lookup key against the namespace's store, and a miss
    yields the absent value.  (Keys are text: a raw value of another shape
    finds nothing.) *)
Definition resolve {St : Type} `{!CallConnector St} (call : St)
    (p : ModuleParameter) : option JSON :=
  match Namespace p with
  | None => Some (Value p)
  | Some ns =>
      match Value p with
      | JString key => JString <$> lookup_namespace call ns key
      | _ => None
      end
  end.

(** ** Package [module]: dispatch, [passthrough] and [storeUserInput] *)

(** The twelve runner types; each is [flow.Module] under another name, and
    the conversion [transfer(m)] is the constructor applied to [m]. *)
Inductive Runner : Type :=
| storeUserInput (m : Module_)
| checkAttribute (m : Module_)
| transfer (m : Module_)
| playPrompt (m : Module_)
| disconnect (m : Module_)
| setQueue (m : Module_)
| getUserInput (m : Module_)
| setAttributes (m : Module_)
| invokeExternalResource (m : Module_)
| checkHoursOfOperation (m : Module_)
| setVoice (m : Module_)
| passthrough (m : Module_).


(** Modelled from the spec: [MakeRunner], which is not part of the sources
    at hand (its test [TestMakeRunner] is, and lists the runner expected
    for each type tag).  "[dispatch(block) -> Runner], a total function
    over the closed type enumeration ... Unknown tags map to a passthrough
    runner." *)
Definition MakeRunner (m : Module_) : Runner :=
  if decide (flow.Type_ m = ModuleStoreUserInput) then storeUserInput m
  else if decide (flow.Type_ m = ModuleCheckAttribute) then checkAttribute m
  else if decide (flow.Type_ m = ModuleTransfer) then transfer m
  else if decide (flow.Type_ m = ModulePlayPrompt) then playPrompt m
  else if decide (flow.Type_ m = ModuleDisconnect) then disconnect m
  else if decide (flow.Type_ m = ModuleSetQueue) then setQueue m
  else if decide (flow.Type_ m = ModuleGetUserInput) then getUserInput m
  else if decide (flow.Type_ m = ModuleSetAttributes) then setAttributes m
  else if decide (flow.Type_ m = ModuleInvokeExternalResource) then
    invokeExternalResource m
  else if decide (flow.Type_ m = ModuleCheckHoursOfOperation) then
    checkHoursOfOperation m
  else if decide (flow.Type_ m = ModuleSetVoice) then setVoice m
  else passthrough m.


(** The typed parameters of a StoreUserInput block. *)
Record storeUserInputParams : Type := {
  Text : string;
  TextToSpeechType : string;
  Timeout : string;
  MaxDigits : Z;
  EncryptEntry : bool;
  DisableCancel : bool;
  TerminatorDigits : string;
  EncryptionKeyId : string;
  EncryptionKey : string
}.

Section spec_modelled_runners.
Context {St : Type} `{!CallConnector St}.


(** The decoding of a block's parameter list into its typed parameters,
    and the character classes of a template reference, are parameters of
    the StoreUserInput runner. *)
Variable unmarshal : St → ModuleParameterList → storeUserInputParams + error.
Variables is_namespace_char is_key_char : ascii → bool.

(** Modelled from the spec: the prompt of a StoreUserInput block, its
    Text with the references resolved against the call. *)
Definition storeUserInput_prompt (call : St) (p : storeUserInputParams)
  : string :=
  jsonPath is_namespace_char is_key_char (lookup_namespace call) (Text p).

(** Modelled from the spec: the terminator, the first of the
    TerminatorDigits, "default [#]". *)
Definition storeUserInput_terminator (p : storeUserInputParams) : ascii :=
  match TerminatorDigits p with
  | String c _ => c
  | EmptyString => "#"%char
  end.

(** Modelled from the spec: "send it to the caller as speech (plain or
    SSML per TextToSpeechType), then block waiting for up to MaxDigits
    characters or the terminator, within Timeout". *)
Definition storeUserInput_receive (call : St) (p : storeUserInputParams)
    (timeout : Z) : St * (string * bool) :=
  let call :=
    Send (storeUserInput_prompt call p)
      (bool_decide (TextToSpeechType p = "ssml")) call in
  Receive (MaxDigits p) (int64_wrap (timeout * Second))
    (storeUserInput_terminator p) call.

(** Modelled from the spec: what is stored as last input, "if
    EncryptEntry is set, ... the base64-encoded result ...; otherwise ...
    the raw input verbatim". *)
Definition storeUserInput_entry (call : St) (p : storeUserInputParams)
    (entry : string) : string :=
  if EncryptEntry p then
    EncodeToString
      (Encrypt entry (EncryptionKeyId p)
         (list_byte_of_string (EncryptionKey p)) call)
  else entry.

(** Modelled from the spec: [storeUserInput.Run], whose source is not at
    hand (its test [TestStoreUserInput] is).  "Resolve Text (with template
    substitution), send it to the caller as speech (plain or SSML per
    TextToSpeechType), then block waiting for up to MaxDigits characters
    or the terminator, within Timeout.  On receipt, if EncryptEntry is
    set, pass the raw input plus key id and certificate bytes through the
    encryption hook and store the base64-encoded result as last-input;
    otherwise store the raw input verbatim.  On timeout (no input
    received), the call proceeds to Success without updating last-input."
    A malformed Timeout "is a fatal parse error"; the terminator defaults
    to [#]. *)
Definition storeUserInput_Run (m : Module_) (call : St) : outcome St :=
  if decide (flow.Type_ m ≠ ModuleStoreUserInput) then
    Returns call None
      (Some (errorString
         ("module of type " +:+ flow.Type_ m +:+ " being run as storeUserInput")))
  else
    match unmarshal call (Parameters m) with
    | inr err => Returns call None (Some err)
    | inl p =>
        match Atoi (Timeout p) with
        | inr err => Returns call None (Some err)
        | inl timeout =>
            let '(call, (entry, ok)) := storeUserInput_receive call p timeout in
            if negb ok then
              Returns call (GetLink (Branches m) BranchSuccess) None
            else
              let entry := storeUserInput_entry call p entry in
              Returns (SetSystem SystemLastUserInput entry call)
                (GetLink (Branches m) BranchSuccess) None
        end
    end.

End spec_modelled_runners.

Section unmarshal.
Context {St : Type} `{!CallConnector St}.
Variable call : St.
Variable plist : ModuleParameterList.

(** Modelled from the spec: the resolved value of the parameter called
    [name], if there is one; an absent resolved value reads as the empty
    text. *)
Definition param_value (name : string) : option JSON :=
  let '(p, ok) := Get plist name in
  if ok then Some (default (JString "") (resolve call p)) else None.

(** Modelled from the spec: an optional text parameter, empty when left
    out. *)
Definition optional_text (name : string) : string :=
  match param_value name with Some (JString s) => s | _ => "" end.

(** Modelled from the spec: an optional boolean parameter, false when left
    out. *)
Definition optional_bool (name : string) : bool :=
  match param_value name with Some (JBool b) => b | _ => false end.

(** Modelled from the spec: a decoder of the parameter list of a
    StoreUserInput block, "a small typed structure per block type with
    explicit required/optional fields and explicit type assertions,
    failing with a named condition on mismatch".  The decoder of the
    package is not part of the sources at hand; this one runs the cases
    of [TestStoreUserInput].  An absent resolved value reads as the empty
    text. *)
Definition unmarshal_storeUserInputParams : storeUserInputParams + error :=
  match param_value "Text" with
  | Some (JString text) =>
      match param_value "Timeout" with
      | Some (JString timeout) =>
          match param_value "MaxDigits" with
          | Some (JNumber maxDigits) =>
              match param_value "EncryptEntry" with
              | Some (JBool encryptEntry) =>
                  inl {| Text := text;
                         TextToSpeechType := optional_text "TextToSpeechType";
                         Timeout := timeout;
                         MaxDigits := maxDigits;
                         EncryptEntry := encryptEntry;
                         DisableCancel := optional_bool "DisableCancel";
                         TerminatorDigits := optional_text "TerminatorDigits";
                         EncryptionKeyId := optional_text "EncryptionKeyId";
                         EncryptionKey := optional_text "EncryptionKey" |}
              | _ => inr (errorString "missing parameter EncryptEntry")
              end
          | _ => inr (errorString "missing parameter MaxDigits")
          end
      | _ => inr (errorString "missing parameter Timeout")
      end
  | _ => inr (errorString "missing parameter Text")
  end.

End unmarshal.

(** The character classes of the references in the package's tests:
    letters for a namespace, letters and digits for a key. *)
Definition is_letter (c : ascii) : bool :=
  let n := N_of_ascii c in
  ((65 <=? n) && (n <=? 90) || (97 <=? n) && (n <=? 122))%N.

Definition is_letter_or_digit (c : ascii) : bool :=
  let n := N_of_ascii c in
  (is_letter c || (48 <=? n) && (n <=? 57))%N.

(** ** Package [flowtest]: the transfer matchers *)

Module flowtest.

Record queueTransferMatcher : Type := { queueName : string }.

(** [queueTransferMatcher.match] returns [(match, pass, got)]; the type
    assertion [evt.(event.QueueTransferEvent)] panics ([None]) on an event
    of another dynamic type. *)
Definition queueTransferMatcher_match (m : queueTransferMatcher) (evt : Event)
  : option (bool * bool * string) :=
  if decide (event.Type_ evt ≠ TransferQueueType) then Some (false, false, "")
  else
    match evt with
    | QueueTransferEvent _ QueueName =>
        Some (true, bool_decide (QueueName = queueName m), QueueName)
    | _ => None
    end.

Definition queueTransferMatcher_expected (m : queueTransferMatcher) : string :=
  "to be transfered to queue '" +:+ queueName m +:+ "'".

Record flowTransferMatcher : Type := { flowName : string }.

(** [flowTransferMatcher.match] *)
Definition flowTransferMatcher_match (m : flowTransferMatcher) (evt : Event)
  : option (bool * bool * string) :=
  if decide (event.Type_ evt ≠ TransferFlowType) then Some (false, false, "")
  else
    match evt with
    | FlowTransferEvent _ FlowName =>
        Some (true, bool_decide (FlowName = flowName m), FlowName)
    | _ => None
    end.

Definition flowTransferMatcher_expected (m : flowTransferMatcher) : string :=
  "to be transfered to flow '" +:+ flowName m +:+ "'".

End flowtest.

(** ** Package [simulator] *)

Module simulator.

(** [Simulator] is capable of starting new simulated call flows.  The
    registered lambdas and the hours check are left out: no function
    embedded here reads them. *)
Record Simulator : Type := {
  flows : gmap string Flow;
  modules : gmap string Module_;
  encrypt : string → string → list byte → list byte;
  telFlow : gmap string Flow
}.

(** [New] creates a new call simulator, blank. *)
Definition New : Simulator :=
  {| flows := ∅; modules := ∅;
     encrypt := λ input _ _, list_byte_of_string input;
     telFlow := ∅ |}.

Section simulator.
(** [flow.Dedeprecate], the call configuration and the construction of a
    call ([newCall]) are not part of the sources at hand; they are
    parameters.  [DestNumber] is the field of [CallConfig] that
    [StartCall] reads. *)
Variable Dedeprecate : Flow → Flow.
Variable CallConfig : Type.
Variable DestNumber : CallConfig → string.
Variable Call : Type.
Variable newCall : CallConfig → Simulator → ModuleID → Call.

(** [LoadFlow] loads an unmarshalled call flow into the simulator. *)
Definition LoadFlow (f : Flow) (cs : Simulator) : Simulator :=
  let f := Dedeprecate f in
  {| flows := <[MetadataName f := f]> (flows cs);
     modules := foldl (λ ms m, <[ID m := m]> ms) (modules cs) (Modules f);
     encrypt := encrypt cs;
     telFlow := telFlow cs |}.

(** [SetStartingFlowFor] specifies the name of the flow that should be run
    when a new call comes in to a given number. *)
Definition SetStartingFlowFor (tel flowName : string) (cs : Simulator)
  : Simulator * option error :=
  match flows cs !! flowName with
  | None =>
      (cs, Some (errorString
         "starting flow not found. Load the flow with LoadFlow before calling this method"))
  | Some f =>
      ({| flows := flows cs; modules := modules cs; encrypt := encrypt cs;
          telFlow := <[tel := f]> (telFlow cs) |}, None)
  end.

(** [SetEncryption] defines how encryption is performed. *)
Definition SetEncryption (encryptor : string → string → list byte → list byte)
    (cs : Simulator) : Simulator :=
  {| flows := flows cs; modules := modules cs; encrypt := encryptor;
     telFlow := telFlow cs |}.

(** [StartCall] starts a new call and returns a [Call] object, or an
    error. *)
Definition StartCall (config : CallConfig) (cs : Simulator)
  : option Call * option error :=
  if decide (DestNumber config = "") then
    (None, Some (errorString
       "a destination number must be provided in order to start a flow"))
  else
    match telFlow cs !! DestNumber config with
    | None =>
        (None, Some (errorString
           "no starting flow set. Call SetStartingFlowFor before starting a call"))
    | Some start => (Some (newCall config cs (Start start)), None)
    end.

(** The set-up calls an owner makes on a simulator before starting
    calls, and the simulator that a sequence of them leaves, starting
    from [New] (the error a [SetStartingFlowFor] may return changes
    nothing in the simulator). *)
Inductive setup : Type :=
| DoLoadFlow (f : Flow)
| DoSetStartingFlowFor (tel flowName : string)
| DoSetEncryption (encryptor : string → string → list byte → list byte).

Definition do_setup (cs : Simulator) (op : setup) : Simulator :=
  match op with
  | DoLoadFlow f => LoadFlow f cs
  | DoSetStartingFlowFor tel flowName => (SetStartingFlowFor tel flowName cs).1
  | DoSetEncryption encryptor => SetEncryption encryptor cs
  end.

Definition configured (ops : list setup) : Simulator := foldl do_setup New ops.

(** No call of [SetStartingFlowFor] for [tel] in the history succeeded:
    each named a flow that was not loaded at the time. *)
Definition never_registered (ops : list setup) (tel : string) : Prop :=
  ∀ before flowName after,
    ops = before ++ DoSetStartingFlowFor tel flowName :: after →
    flows (configured before) !! flowName = None.

End simulator.

(** [simulatorConnector.GetFlowStart] gets the module ID of the block at
    the start of a flow with the given name. *)
Definition GetFlowStart (flowName : string) (cs : Simulator) : option ModuleID :=
  match flows cs !! flowName with
  | None => None
  | Some f => Some (Start f)
  end.

(** [simulatorConnector.GetModule] finds the block with the given ID. *)
Definition GetModule (moduleID : ModuleID) (cs : Simulator) : option Module_ :=
  modules cs !! moduleID.

(** [simulatorConnector.Encrypt] *)
Definition Encrypt (input keyID : string) (cert : list byte) (cs : Simulator)
  : list byte :=
  encrypt cs input keyID cert.

End simulator.

(** ** Package [simulator]: the registered lambdas *)

(** [strings.Contains(s, substr)]: [substr] occurs in [s]. *)
Fixpoint Contains (s substr : string) : bool :=
  String.prefix substr s ||
  match s with
  | EmptyString => false
  | String _ rest => Contains rest substr
  end.

Section lambdas.
(** A registered handler is an [interface{}] holding a function, a value
    of the type [Lambda] here (a [nil] handler is not represented); its
    validation [validateLambda] and its invocation [invokeLambda] are not
    part of the sources at hand and are parameters.  The field [lambdas]
    of [Simulator] is the map these functions work on. *)
Variable Lambda : Type.
Variable validateLambda : Lambda → option error.
Variable invokeLambda : Lambda → string → string * option error * option error.

(** [RegisterLambda] specifies how external lambda invocations will be
    handled. *)
Definition RegisterLambda (name : string) (fn : Lambda)
    (lambdas : gmap string Lambda) : gmap string Lambda * option error :=
  match validateLambda fn with
  | Some err => (lambdas, Some err)
  | None => (<[name := fn]> lambdas, None)
  end.

(** [simulatorConnector.GetLambda] gets a lambda using a partial ARN
    match.  The loop ranges over the map [cs.lambdas], in an order that Go
    leaves unspecified: [entries] are the entries of the map in the order
    the loop visits them. *)
Fixpoint GetLambda (entries : list (string * Lambda)) (arn : string)
  : option Lambda :=
  match entries with
  | [] => None
  | (k, v) :: rest => if Contains arn k then Some v else GetLambda rest arn
  end.

(** [simulatorConnector.InvokeLambda] *)
Definition InvokeLambda (entries : list (string * Lambda))
    (named withJSON : string) : string * option error * option error :=
  match GetLambda entries named with
  | None => ("", None, Some (errorString ("unknown lambda: " +:+ named)))
  | Some fn => invokeLambda fn withJSON
  end.

End lambdas.

(** ** Blocks and call states of the package's tests *)

(** A branch, a block and a parameter, as the JSON of the tests gives
    them (the fields a test leaves out are empty). *)
Definition branch (cond : ModuleBranchCondition) (to : ModuleID) : ModuleBranch :=
  {| Condition := cond; ConditionType := ""; ConditionValue := JNull;
     Transition := to |}.

Definition block (type : ModuleType) (target : ModuleTarget)
    (branches : ModuleBranchList) (parameters : ModuleParameterList) : Module_ :=
  {| ID := "43dcc4f2-3392-4a38-90ed-0216f8594ea8"; flow.Type_ := type;
     Branches := branches; Parameters := parameters; Metadata := "";
     Target := target |}.

Definition parameter (name : string) (value : JSON) : ModuleParameter :=
  {| Name := name; Key := ""; Value := value; Namespace := None;
     ResourceName := "" |}.

(** The parameter that names the flow of a Transfer block. *)
Definition contactFlowId (arn name : string) : ModuleParameter :=
  {| Name := "ContactFlowId"; Key := ""; Value := JString arn;
     Namespace := None; ResourceName := name |}.

(** A parameter looked up in a namespace. *)
Definition parameter_in (name : string) (value : JSON)
    (ns : ModuleParameterNamespace) : ModuleParameter :=
  {| Name := name; Key := ""; Value := value; Namespace := Some ns;
     ResourceName := "" |}.

(** The blocks of [TestStoreUserInput]. *)
Definition successAndError : ModuleBranchList :=
  [ branch "Success" "00000000-0000-4000-0000-000000000001";
    branch "Error" "00000000-0000-4000-0000-000000000002" ].

Definition jsonBadMod : Module_ := block "Transfer" "" [] [].

Definition jsonBadParam : Module_ := block "StoreUserInput" "" [] [].

Definition jsonBadTimeout : Module_ :=
  block "StoreUserInput" "" []
    [ parameter_in "Text" (JString "prompt") "External";
      parameter "Timeout" (JString "fishcake");
      parameter "MaxDigits" (JNumber 8);
      parameter "TextToSpeechType" (JString "text");
      parameter "EncryptEntry" (JBool false) ].

Definition jsonOK : Module_ :=
  block "StoreUserInput" "" successAndError
    [ parameter_in "Text" (JString "prompt") "External";
      parameter "TextToSpeechType" (JString "ssml");
      parameter "CustomerInputType" (JString "Custom");
      parameter "Timeout" (JString "7");
      parameter "MaxDigits" (JNumber 8);
      parameter "EncryptEntry" (JBool false);
      parameter "DisableCancel" (JBool true) ].

Definition jsonOKEncrypted : Module_ :=
  block "StoreUserInput" "" successAndError
    [ parameter "Text" (JString "hello");
      parameter "TextToSpeechType" (JString "ssml");
      parameter "CustomerInputType" (JString "Custom");
      parameter "Timeout" (JString "7");
      parameter "MaxDigits" (JNumber 8);
      parameter "EncryptEntry" (JBool true);
      parameter "DisableCancel" (JBool true);
      parameter "EncryptionKeyId" (JString "fa0ef83f-fbfa-4acd-9bdb-a8564d35490e");
      parameter "EncryptionKey"
        (JString ("-----BEGIN CERTIFICATE-----" +:+
                  String "010" "-----END CERTIFICATE-----")) ].

Definition jsonOKCustomTerminator : Module_ :=
  block "StoreUserInput" "" successAndError
    [ parameter "Text" (JString "hello");
      parameter "TextToSpeechType" (JString "text");
      parameter "CustomerInputType" (JString "Custom");
      parameter "Timeout" (JString "7");
      parameter "MaxDigits" (JNumber 8);
      parameter "EncryptEntry" (JBool false);
      parameter "DisableCancel" (JBool false);
      parameter "TerminatorDigits" (JString "0") ].

(** The call states of [TestStoreUserInput]: an input, the external
    store and the encryption hook; the rest is as [init] leaves it. *)
Definition testCallState_with (input : string) (ext : gmap string string)
    (hook : string → string → list byte → list byte) : testCallState :=
  {| i := input; o := ""; oSSML := false;
     rcv_count := 0; rcv_timeout := 0; rcv_terminator := "000"%char;
     encrypt := hook;
     external := ext; contactData := ∅; system := ∅; flowStart := ∅;
     events := [] |}.

(** The encryption hook of the test "success - encrypted". *)
Definition encrypt_tags (input keyID : string) (cert : list byte) : list byte :=
  list_byte_of_string ("<encrypt>" +:+ input +:+ "</encrypt>").

Definition state_timeout : testCallState :=
  testCallState_with "Timeout"
    {[ "prompt" := "<speak>Please enter digits 1 and 3 of your passcode.</speak>" ]}
    (encrypt testCallState_init).

Definition state_success : testCallState :=
  testCallState_with "12345678"
    (<[ "prompt" :=
          "<speak>Please enter digits $.External.digits of your passcode.</speak>" ]>
       {[ "digits" := "1 and 3" ]})
    (encrypt testCallState_init).

Definition state_encrypted : testCallState :=
  testCallState_with "12345678" ∅ encrypt_tags.

Definition state_custom_terminator : testCallState :=
  testCallState_with "12345678" ∅ (encrypt testCallState_init).

(** A call in which SetQueue has stored a queue. *)
Definition state_queue_set : testCallState :=
  {| i := ""; o := ""; oSSML := false;
     rcv_count := 0; rcv_timeout := 0; rcv_terminator := "000"%char;
     encrypt := encrypt testCallState_init;
     external := ∅; contactData := ∅;
     system := <[ SystemQueueName := "support" ]>
                 {[ SystemQueueARN := "arn:aws:connect:queue/1" ]};
     flowStart := ∅; events := [] |}.

(** [Run] of a StoreUserInput block on the test connector, with the
    decoder and the character classes above. *)
Definition storeUserInput_test_Run (m : Module_) (st : testCallState)
  : outcome testCallState :=
  storeUserInput_Run unmarshal_storeUserInputParams is_letter
    is_letter_or_digit m st.

(** What a case of [TestStoreUserInput] checks after [Run]: the next
    block, the error, the system state, the prompt, the arguments of the
    receive and the events. *)
Record checked : Type := {
  next : option ModuleID;
  err : option error;
  sys : list (string * string);
  prompt : string;
  rcvCount : Z;
  rcvTimeout : Duration;
  rcvTerminator : ascii;
  evt : list Event
}.

Definition check (r : outcome testCallState) : option checked :=
  match r with
  | Returns st next err =>
      Some {| next := next; err := err; sys := map_to_list (system st);
              prompt := o st; rcvCount := rcv_count st;
              rcvTimeout := rcv_timeout st;
              rcvTerminator := rcv_terminator st; evt := events st |}
  | Panics => None
  end.

(** * Properties *)

(** The first step of every proof about a runner on a block of its own
    type: the guard [m.Type != ...] is false. *)
Ltac type_check_passes :=
  rewrite decide_False by (let Hne := fresh in intros Hne; by apply Hne).

(** ** Branch lookup *)

Lemma GetLink_nil named : GetLink [] named = None.
Proof. reflexivity. Qed.

Lemma GetLink_cons_eq p rest named :
  Condition p = named → GetLink (p :: rest) named = Some (Transition p).
Proof. intros Heq. simpl. by rewrite decide_True. Qed.

Lemma GetLink_cons_ne p rest named :
  Condition p ≠ named → GetLink (p :: rest) named = GetLink rest named.
Proof. intros Hne. simpl. by rewrite decide_False. Qed.

Lemma GetLink_None (mbl : ModuleBranchList) named :
  GetLink mbl named = None ↔ Forall (λ p, Condition p ≠ named) mbl.
Proof.
  induction mbl as [|p rest IH].
  - split; [constructor | reflexivity].
  - destruct (decide (Condition p = named)) as [Heq|Hne].
    + rewrite GetLink_cons_eq by done. split; [discriminate|].
      intros Hall. inversion Hall; subst. contradiction.
    + rewrite GetLink_cons_ne by done. rewrite IH. split.
      * by constructor.
      * by inversion 1.
Qed.

Lemma GetLink_Some (mbl : ModuleBranchList) named t :
  GetLink mbl named = Some t ↔
  ∃ before b after,
    mbl = before ++ b :: after ∧
    Forall (λ p, Condition p ≠ named) before ∧
    Condition b = named ∧ Transition b = t.
Proof.
  induction mbl as [|p rest IH].
  - split; [discriminate|].
    intros (before & b & after & Heq & _). by destruct before.
  - destruct (decide (Condition p = named)) as [Heq|Hne].
    + rewrite GetLink_cons_eq by done. split.
      * intros [= <-]. exists [], p, rest. by repeat split.
      * intros ([|q before] & b & after & Hl & Hall & Hb & Ht).
        -- simpl in Hl. injection Hl as -> ->. by rewrite Ht.
        -- simpl in Hl. injection Hl as -> ->.
           inversion Hall; subst. contradiction.
    + rewrite GetLink_cons_ne by done. rewrite IH. split.
      * intros (before & b & after & -> & Hall & Hb & Ht).
        exists (p :: before), b, after. repeat split; auto.
      * intros ([|q before] & b & after & Hl & Hall & Hb & Ht).
        -- simpl in Hl. injection Hl as -> ->. contradiction.
        -- simpl in Hl. injection Hl as -> ->.
           inversion Hall; subst. exists before, b, after. by repeat split.
Qed.

(** C3. [GetLink] returns the transition of the first branch, in
    declaration order, whose condition is the label, and no successor
    exactly when no branch carries the label; being a function of the
    list and the label alone, equal arguments give equal results. *)
Theorem GetLink_first_match (mbl : ModuleBranchList) (named : ModuleBranchCondition) :
  (∀ t, GetLink mbl named = Some t ↔
        ∃ before b after,
          mbl = before ++ b :: after ∧
          Forall (λ p, Condition p ≠ named) before ∧
          Condition b = named ∧ Transition b = t) ∧
  (GetLink mbl named = None ↔ Forall (λ p, Condition p ≠ named) mbl) ∧
  (∀ mbl' named', mbl' = mbl → named' = named →
        GetLink mbl' named' = GetLink mbl named).
Proof.
  split; [|split].
  - intros t. apply GetLink_Some.
  - apply GetLink_None.
  - by intros mbl' named' -> ->.
Qed.


Lemma GetLink_first_match_witness :
  GetLink [branch "Error" "e"; branch "Success" "s1"; branch "Success" "s2"]
    "Success" = Some "s1" ∧
  GetLink [branch "Error" "e"; branch "Success" "s1"] "Timeout" = None.
Proof.
  split.
  - apply (GetLink_first_match _ "Success").
    exists [branch "Error" "e"], (branch "Success" "s1"), [branch "Success" "s2"].
    repeat split. repeat constructor. discriminate.
  - apply (GetLink_first_match _ "Timeout").
    repeat constructor; discriminate.
Defined.

(** ** The type check every runner starts with *)

Section type_check.
Context {St : Type} `{!CallConnector St}.




End type_check.





(** ** Transfer *)

Section transfer.
Context {St : Type} `{!CallConnector St}.

Lemma transfer_Run_queue_unset (m : Module_) (call : St) :
  flow.Type_ m = ModuleTransfer → Target m = TargetQueue →
  GetSystem SystemQueueName call = None ∨ GetSystem SystemQueueARN call = None →
  transfer_Run m call = Returns call (GetLink (Branches m) BranchError) None.
Proof.
  intros Htype Htarget Hunset. unfold transfer_Run.
  type_check_passes.
  rewrite Htarget. simpl.
  destruct Hunset as [-> | ->]; [done|].
  by destruct (GetSystem SystemQueueName call).
Qed.

Lemma transfer_Run_queue_set (m : Module_) (call : St) queue arn :
  flow.Type_ m = ModuleTransfer → Target m = TargetQueue →
  GetSystem SystemQueueName call = Some queue →
  GetSystem SystemQueueARN call = Some arn →
  transfer_Run m call =
    Returns (Emit (QueueTransferEvent arn queue) call) None None.
Proof.
  intros Htype Htarget Hqueue Harn. unfold transfer_Run.
  type_check_passes.
  rewrite Htarget. simpl. by rewrite Hqueue, Harn.
Qed.

Lemma transfer_Run_phone_number (m : Module_) (call : St) blind b num tel :
  flow.Type_ m = ModuleTransfer → Target m = TargetPhoneNumber →
  Get (Parameters m) "BlindTransfer" = (blind, true) → Value blind = JBool b →
  Get (Parameters m) "PhoneNumber" = (num, true) → Value num = JString tel →
  transfer_Run m call =
    Returns (Emit (NumberTransferEvent tel) call)
      (if b then None else GetLink (Branches m) BranchSuccess) None.
Proof.
  intros Htype Htarget Hblind Hb Hnum Htel. unfold transfer_Run.
  type_check_passes.
  rewrite Htarget. simpl. rewrite Hblind, Hb, Hnum, Htel. simpl.
  by destruct b.
Qed.

End transfer.

(** C1. A Transfer block with Queue target, run on a call in which the
    queue name or the queue ARN is not in the system state, returns the
    link of its Error branch and emits nothing (the call is as it was);
    run on a call in which both are stored, it emits one queue-transfer
    event carrying the stored ARN and name and returns no successor.  The
    first part is stated for every connector, the second for the
    connector whose event log can be read. *)
Theorem transfer_Run_queue (m : Module_) :
  flow.Type_ m = ModuleTransfer → Target m = TargetQueue →
  (∀ (St : Type) (C : CallConnector St) (call : St),
     (GetSystem SystemQueueName call = None ∨
      GetSystem SystemQueueARN call = None →
      transfer_Run m call =
        Returns call (GetLink (Branches m) BranchError) None) ∧
     (∀ queue arn,
        GetSystem SystemQueueName call = Some queue →
        GetSystem SystemQueueARN call = Some arn →
        transfer_Run m call =
          Returns (Emit (QueueTransferEvent arn queue) call) None None)) ∧
  (∀ (call : testCallState) queue arn,
     system call !! SystemQueueName = Some queue →
     system call !! SystemQueueARN = Some arn →
     ∃ call',
       transfer_Run m call = Returns call' None None ∧
       events call' = events call ++ [QueueTransferEvent arn queue] ∧
       system call' = system call).
Proof.
  intros Htype Htarget. split.
  - intros St C call. split.
    + by apply transfer_Run_queue_unset.
    + intros queue arn. by apply transfer_Run_queue_set.
  - intros call queue arn Hqueue Harn.
    exists (Emit (QueueTransferEvent arn queue) call). split; [|done].
    by apply transfer_Run_queue_set.
Qed.

Lemma transfer_Run_queue_witness :
  transfer_Run (block "Transfer" "Queue" [branch "Success" "s"; branch "Error" "e"] [])
    testCallState_init =
    Returns testCallState_init (Some "e") None ∧
  ∃ call',
    transfer_Run (block "Transfer" "Queue" [branch "Success" "s"; branch "Error" "e"] [])
      state_queue_set = Returns call' None None ∧
    events call' = [QueueTransferEvent "arn:aws:connect:queue/1" "support"].
Proof.
  destruct (transfer_Run_queue
              (block "Transfer" "Queue" [branch "Success" "s"; branch "Error" "e"] [])
              eq_refl eq_refl) as [Hany Htest].
  split.
  - apply (Hany testCallState _ testCallState_init). left. reflexivity.
  - destruct (Htest state_queue_set "support" "arn:aws:connect:queue/1"
                eq_refl eq_refl) as (call' & Hrun & Hevents & _).
    exists call'. split; [exact Hrun | exact Hevents].
Defined.

(** A Transfer block with PhoneNumber target and a boolean BlindTransfer
    parameter, but no PhoneNumber parameter: [Run] stops at the guard on
    PhoneNumber, with an error and no number-transfer event. *)
Example transfer_Run_phone_number_absent :
  let m := block "Transfer" "PhoneNumber" [branch "Success" "s"]
             [parameter "BlindTransfer" (JBool true)] in
  Get (Parameters m) "BlindTransfer" = (parameter "BlindTransfer" (JBool true), true) ∧
  transfer_Run m testCallState_init =
    Returns testCallState_init None
      (Some (errorString "missing PhoneNumber parameter")).
Proof. split; reflexivity. Qed.

(** C6 as stated fails: a PhoneNumber target and a boolean BlindTransfer
    parameter do not suffice for [Run] to emit a number-transfer event and
    return without error. *)
Lemma transfer_Run_phone_number_needs_number :
  ¬ (∀ (m : Module_) (call : testCallState) blind b,
       flow.Type_ m = ModuleTransfer → Target m = TargetPhoneNumber →
       Get (Parameters m) "BlindTransfer" = (blind, true) →
       Value blind = JBool b →
       ∃ call' tel,
         transfer_Run m call =
           Returns call' (if b then None else GetLink (Branches m) BranchSuccess)
             None ∧
         events call' = events call ++ [NumberTransferEvent tel]).
Proof.
  intros Hclaim.
  destruct (Hclaim
              (block "Transfer" "PhoneNumber" [branch "Success" "s"]
                 [parameter "BlindTransfer" (JBool true)])
              testCallState_init (parameter "BlindTransfer" (JBool true)) true
              eq_refl eq_refl eq_refl eq_refl) as (call' & tel & Hrun & _).
  discriminate Hrun.
Qed.

(** C6, amended. A Transfer block with PhoneNumber target, a boolean
    BlindTransfer parameter and a textual PhoneNumber parameter emits one
    number-transfer event carrying the PhoneNumber parameter's value; it
    returns no successor when BlindTransfer is true and the link of the
    Success branch when it is false. *)
Theorem transfer_Run_phone_number_transfer (m : Module_) blind b num tel :
  flow.Type_ m = ModuleTransfer → Target m = TargetPhoneNumber →
  Get (Parameters m) "BlindTransfer" = (blind, true) → Value blind = JBool b →
  Get (Parameters m) "PhoneNumber" = (num, true) → Value num = JString tel →
  (∀ (St : Type) (C : CallConnector St) (call : St),
     transfer_Run m call =
       Returns (Emit (NumberTransferEvent tel) call)
         (if b then None else GetLink (Branches m) BranchSuccess) None) ∧
  (∀ call : testCallState,
     ∃ call',
       transfer_Run m call =
         Returns call' (if b then None else GetLink (Branches m) BranchSuccess)
           None ∧
       events call' = events call ++ [NumberTransferEvent tel]).
Proof.
  intros Htype Htarget Hblind Hb Hnum Htel. split.
  - intros St C call. by eapply transfer_Run_phone_number.
  - intros call. exists (Emit (NumberTransferEvent tel) call). split; [|done].
    by eapply transfer_Run_phone_number.
Qed.

Lemma transfer_Run_phone_number_transfer_witness :
  (∃ call',
     transfer_Run
       (block "Transfer" "PhoneNumber" [branch "Success" "s"]
          [parameter "BlindTransfer" (JBool true);
           parameter "PhoneNumber" (JString "+441234567890")])
       testCallState_init = Returns call' None None ∧
     events call' = [NumberTransferEvent "+441234567890"]) ∧
  (∃ call',
     transfer_Run
       (block "Transfer" "PhoneNumber" [branch "Success" "s"]
          [parameter "BlindTransfer" (JBool false);
           parameter "PhoneNumber" (JString "+441234567890")])
       testCallState_init = Returns call' (Some "s") None ∧
     events call' = [NumberTransferEvent "+441234567890"]).
Proof.
  split.
  - apply (transfer_Run_phone_number_transfer
             (block "Transfer" "PhoneNumber" [branch "Success" "s"]
                [parameter "BlindTransfer" (JBool true);
                 parameter "PhoneNumber" (JString "+441234567890")])
             _ true _ "+441234567890" eq_refl eq_refl eq_refl eq_refl eq_refl eq_refl).
  - apply (transfer_Run_phone_number_transfer
             (block "Transfer" "PhoneNumber" [branch "Success" "s"]
                [parameter "BlindTransfer" (JBool false);
                 parameter "PhoneNumber" (JString "+441234567890")])
             _ false _ "+441234567890" eq_refl eq_refl eq_refl eq_refl eq_refl eq_refl).
Defined.

(** ** Dispatch *)





(** ** The transfer matchers *)

Import flowtest.

(** C9. On every event each matcher answers (the type assertion never
    fails).  The answer is not-applicable, [(false, false, "")], exactly
    when the event is not of the matcher's kind; on an event of its kind
    the matcher is applicable, passes exactly when the name the event
    carries is the asserted name, and reports the name the event carries. *)
Theorem transfer_matchers_match (evt : Event) :
  (∀ m : queueTransferMatcher,
     ∃ applicable pass got,
       queueTransferMatcher_match m evt = Some (applicable, pass, got) ∧
       (applicable = false ↔ event.Type_ evt ≠ TransferQueueType) ∧
       (applicable = false → pass = false ∧ got = "") ∧
       (applicable = true →
        ∃ arn name,
          evt = QueueTransferEvent arn name ∧
          (pass = true ↔ name = queueName m) ∧ got = name)) ∧
  (∀ m : flowTransferMatcher,
     ∃ applicable pass got,
       flowTransferMatcher_match m evt = Some (applicable, pass, got) ∧
       (applicable = false ↔ event.Type_ evt ≠ TransferFlowType) ∧
       (applicable = false → pass = false ∧ got = "") ∧
       (applicable = true →
        ∃ arn name,
          evt = FlowTransferEvent arn name ∧
          (pass = true ↔ name = flowName m) ∧ got = name)).
Proof.
  split; intros m.
  - destruct evt as [arn name|arn name|tel|kind]; simpl;
      [ exists true, (bool_decide (name = queueName m)), name
      | exists false, false, "" .. ];
      (split; [reflexivity|]); (split; [split; [done|]|split; [done|]]);
      try done.
    intros _. exists arn, name. split; [done|]. split; [|done].
    apply bool_decide_eq_true.
  - destruct evt as [arn name|arn name|tel|kind]; simpl;
      [ exists false, false, ""
      | exists true, (bool_decide (name = flowName m)), name
      | exists false, false, "" .. ];
      (split; [reflexivity|]); (split; [split; [done|]|split; [done|]]);
      try done.
    intros _. exists arn, name. split; [done|]. split; [|done].
    apply bool_decide_eq_true.
Qed.

Lemma transfer_matchers_match_witness :
  queueTransferMatcher_match {| queueName := "support" |}
    (QueueTransferEvent "arn:queue/1" "sales") = Some (true, false, "sales") ∧
  flowTransferMatcher_match {| flowName := "main" |}
    (QueueTransferEvent "arn:queue/1" "sales") = Some (false, false, "").
Proof.
  destruct (transfer_matchers_match (QueueTransferEvent "arn:queue/1" "sales"))
    as [Hqueue Hflow].
  split.
  - destruct (Hqueue {| queueName := "support" |})
      as (applicable & pass & got & -> & Hkind & _ & Hpayload).
    destruct applicable.
    + destruct (Hpayload eq_refl) as (arn & name & [= <- <-] & Hpass & ->).
      destruct pass; [|reflexivity].
      by specialize (proj1 Hpass eq_refl).
    + by destruct (proj1 Hkind eq_refl).
  - destruct (Hflow {| flowName := "main" |})
      as (applicable & pass & got & -> & Hkind & Hnot & Hpayload).
    destruct applicable.
    + by destruct (Hpayload eq_refl) as (arn & name & [=] & _).
    + by destruct (Hnot eq_refl) as [-> ->].
Defined.

(** ** Starting a call *)

Section StartCall.
Import simulator.
Variable Dedeprecate : Flow → Flow.
Variable CallConfig : Type.
Variable DestNumber : CallConfig → string.
Variable Call : Type.
Variable newCall : CallConfig → Simulator → ModuleID → Call.

Local Abbreviation StartCall := (StartCall CallConfig DestNumber Call newCall).
Local Abbreviation configured := (configured Dedeprecate).
Local Abbreviation never_registered := (never_registered Dedeprecate).

Lemma StartCall_error (config : CallConfig) (cs : Simulator) :
  (∃ err, StartCall config cs = (None, Some err)) ↔
  DestNumber config = "" ∨ telFlow cs !! DestNumber config = None.
Proof.
  unfold simulator.StartCall.
  destruct (decide (DestNumber config = "")) as [Hempty|Hnumber].
  - split; [by left | eauto].
  - destruct (telFlow cs !! DestNumber config) as [f|] eqn:Hflow.
    + split; [by intros [err [=]] | by intros [?|?]].
    + split; [by right | eauto].
Qed.

Lemma StartCall_success (config : CallConfig) (cs : Simulator) f :
  DestNumber config ≠ "" → telFlow cs !! DestNumber config = Some f →
  StartCall config cs = (Some (newCall config cs (Start f)), None).
Proof.
  intros Hnumber Hflow. unfold simulator.StartCall.
  rewrite decide_False by done. by rewrite Hflow.
Qed.

Lemma configured_snoc ops op :
  configured (ops ++ [op]) = do_setup Dedeprecate (configured ops) op.
Proof. unfold simulator.configured. by rewrite foldl_app. Qed.

(** What one set-up call does to the table of starting flows. *)
Lemma telFlow_do_setup cs op tel :
  telFlow (do_setup Dedeprecate cs op) !! tel =
    match op with
    | DoSetStartingFlowFor tel' flowName =>
        match flows cs !! flowName with
        | Some f => if decide (tel' = tel) then Some f else telFlow cs !! tel
        | None => telFlow cs !! tel
        end
    | _ => telFlow cs !! tel
    end.
Proof.
  destruct op as [f|tel' flowName|e]; simpl; try done.
  unfold SetStartingFlowFor. destruct (flows cs !! flowName) as [f|]; simpl; [|done].
  rewrite lookup_insert. by case_decide.
Qed.

Lemma snoc_eq_middle {A} (ops : list A) op before x after :
  ops ++ [op] = before ++ x :: after →
  (after = [] ∧ ops = before ∧ op = x) ∨
  (∃ after', after = after' ++ [op] ∧ ops = before ++ x :: after').
Proof.
  intros Heq. destruct (decide (after = [])) as [->|Hne]; [left|right].
  - apply app_inj_tail in Heq as [-> ->]. done.
  - destruct (exists_last Hne) as (after' & last & ->).
    exists after'. rewrite app_comm_cons, app_assoc in Heq.
    by apply app_inj_tail in Heq as [-> ->].
Qed.

Lemma telFlow_configured_None ops tel :
  telFlow (configured ops) !! tel = None ↔ never_registered ops tel.
Proof.
  unfold simulator.never_registered.
  induction ops as [|op ops IH] using rev_ind.
  - split; [|done]. intros _ before flowName after Heq. by destruct before.
  - rewrite configured_snoc, telFlow_do_setup. split.
    + intros Hnone before flowName after Heq.
      apply snoc_eq_middle in Heq as [(-> & -> & ->)|(after' & -> & ->)].
      * destruct (flows (configured before) !! flowName); [|done].
        by rewrite decide_True in Hnone.
      * apply (proj1 IH) with (after := after'); [|done].
        destruct op as [f|tel' name|e]; try done.
        destruct (flows _ !! name); [|done].
        by case_decide.
    + intros Hnever.
      assert (telFlow (configured ops) !! tel = None) as Hops.
      { apply IH. intros before flowName after ->.
        apply (Hnever before flowName (after ++ [op])).
        by rewrite <- app_assoc. }
      destruct op as [f|tel' name|e]; try done.
      destruct (flows (configured ops) !! name) as [f|] eqn:Hname; [|done].
      case_decide as Htel; [|done]. subst tel'.
      by rewrite (Hnever ops name [] eq_refl) in Hname.
Qed.

Lemma telFlow_configured_Some ops tel f :
  telFlow (configured ops) !! tel = Some f →
  ∃ before flowName after,
    ops = before ++ DoSetStartingFlowFor tel flowName :: after ∧
    flows (configured before) !! flowName = Some f.
Proof.
  induction ops as [|op ops IH] using rev_ind; [done|].
  rewrite configured_snoc, telFlow_do_setup.
  assert (telFlow (configured ops) !! tel = Some f →
          ∃ before flowName after,
            ops ++ [op] = before ++ DoSetStartingFlowFor tel flowName :: after ∧
            flows (configured before) !! flowName = Some f) as Hold.
  { intros (before & flowName & after & -> & Hflow)%IH.
    exists before, flowName, (after ++ [op]). by rewrite <- app_assoc. }
  destruct op as [g|tel' name|e]; try done.
  destruct (flows (configured ops) !! name) as [g|] eqn:Hname; [|done].
  case_decide as Htel; [|done]. subst tel'. intros [= ->].
  by exists ops, name, [].
Qed.

(** C10. [StartCall] returns an error and no call exactly when the
    destination number of the configuration is empty or the table of
    starting flows has no entry for it; on a simulator set up from [New]
    the latter means that no [SetStartingFlowFor] for that number has
    succeeded.  In every other case it returns, without error, the call
    that [newCall] builds from the start block of the flow registered
    for the number, a flow that a [SetStartingFlowFor] for that number
    found loaded. *)
Theorem StartCall_error_iff_unregistered (config : CallConfig) :
  (∀ cs : Simulator,
     ((∃ err, StartCall config cs = (None, Some err)) ↔
      DestNumber config = "" ∨ telFlow cs !! DestNumber config = None) ∧
     (∀ f, DestNumber config ≠ "" →
           telFlow cs !! DestNumber config = Some f →
           StartCall config cs = (Some (newCall config cs (Start f)), None))) ∧
  (∀ ops : list setup,
     ((∃ err, StartCall config (configured ops) = (None, Some err)) ↔
      DestNumber config = "" ∨ never_registered ops (DestNumber config)) ∧
     (¬ (DestNumber config = "" ∨ never_registered ops (DestNumber config)) →
      ∃ before flowName after f,
        ops = before ++ DoSetStartingFlowFor (DestNumber config) flowName :: after ∧
        flows (configured before) !! flowName = Some f ∧
        StartCall config (configured ops) =
          (Some (newCall config (configured ops) (Start f)), None))).
Proof.
  split.
  - intros cs. split; [apply StartCall_error|].
    intros f. apply StartCall_success.
  - intros ops. split.
    + rewrite StartCall_error. by rewrite telFlow_configured_None.
    + intros Hregistered.
      destruct (decide (DestNumber config = "")) as [Hempty|Hnumber];
        [by destruct Hregistered; left|].
      destruct (telFlow (configured ops) !! DestNumber config) as [f|] eqn:Hflow.
      * destruct (telFlow_configured_Some _ _ _ Hflow)
          as (before & flowName & after & Hops & Hloaded).
        exists before, flowName, after, f.
        split; [done|]. split; [done|]. by apply StartCall_success.
      * destruct Hregistered. right. by apply telFlow_configured_None.
Qed.

End StartCall.

(** ** Template substitution *)

Lemma string_app_nil_l (s : string) : "" +:+ s = s.
Proof. reflexivity. Qed.

Lemma string_app_cons (c : ascii) (s t : string) :
  String c s +:+ t = String c (s +:+ t).
Proof. reflexivity. Qed.


Section TemplateSubstitution_facts.
Variables is_namespace_char is_key_char : ascii → bool.
Variable lookup : string → string → option string.

Local Abbreviation reference_at' := (reference_at is_namespace_char is_key_char).
Local Abbreviation jsonPath' := (jsonPath is_namespace_char is_key_char lookup).




(** The three steps of the scan. *)
Lemma jsonPath_found s ns key after value :
  reference_at' s = Some (ns, key, after) → lookup ns key = Some value →
  jsonPath' s = value +:+ jsonPath' after.
Proof.
  intros Href Hvalue. destruct s as [|c rest]; [discriminate|].
  simp jsonPath.
  destruct (inspect _) as [[[[ns' key'] after']|] Href']; simp jsonPath;
    rewrite Href in Href'; [|discriminate].
  injection Href' as <- <- <-. by rewrite Hvalue.
Qed.





End TemplateSubstitution_facts.


(** ** StoreUserInput *)

(** ** StoreUserInput *)

Section storeUserInput.
Variables is_namespace_char is_key_char : ascii → bool.

Section any_connector.
Context {St : Type} `{!CallConnector St}.
Variable unmarshal : St → ModuleParameterList → storeUserInputParams + error.

Local Abbreviation Run :=
  (storeUserInput_Run unmarshal is_namespace_char is_key_char).
Local Abbreviation receive :=
  (storeUserInput_receive is_namespace_char is_key_char).

Lemma storeUserInput_Run_wrong_type (m : Module_) (call : St) :
  flow.Type_ m ≠ ModuleStoreUserInput →
  Run m call =
    Returns call None
      (Some (errorString
         ("module of type " +:+ flow.Type_ m +:+ " being run as storeUserInput"))).
Proof. intros Hne. unfold storeUserInput_Run. by rewrite decide_True. Qed.

Lemma storeUserInput_Run_receive (m : Module_) (call : St) p timeout :
  flow.Type_ m = ModuleStoreUserInput →
  unmarshal call (Parameters m) = inl p →
  Atoi (Timeout p) = inl timeout →
  Run m call =
    let '(call', (entry, ok)) := receive call p timeout in
    if negb ok then Returns call' (GetLink (Branches m) BranchSuccess) None
    else
      Returns
        (SetSystem SystemLastUserInput (storeUserInput_entry call' p entry) call')
        (GetLink (Branches m) BranchSuccess) None.
Proof.
  intros Htype Hp Htimeout. unfold storeUserInput_Run.
  type_check_passes.
  by rewrite Hp, Htimeout.
Qed.

Lemma storeUserInput_Run_timed_out (m : Module_) (call : St) p timeout call' entry :
  flow.Type_ m = ModuleStoreUserInput →
  unmarshal call (Parameters m) = inl p →
  Atoi (Timeout p) = inl timeout →
  receive call p timeout = (call', (entry, false)) →
  Run m call = Returns call' (GetLink (Branches m) BranchSuccess) None.
Proof.
  intros Htype Hp Htimeout Hreceive.
  rewrite (storeUserInput_Run_receive m call p timeout) by done.
  by rewrite Hreceive.
Qed.


End any_connector.

(** On the test connector the receive times out exactly when the input
    is empty or is the word Timeout; either way only the prompt and the
    record of the receive have changed. *)
Lemma testCallState_receive (call : testCallState) p timeout :
  ∃ call',
    storeUserInput_receive is_namespace_char is_key_char call p timeout =
      (call', (if decide (i call = "") then "" else i call,
               bool_decide (i call ≠ "" ∧ i call ≠ "Timeout"))) ∧
    o call' = storeUserInput_prompt is_namespace_char is_key_char call p ∧
    i call' = i call ∧ encrypt call' = encrypt call ∧
    system call' = system call ∧ external call' = external call ∧
    contactData call' = contactData call ∧ flowStart call' = flowStart call ∧
    events call' = events call.
Proof.
  unfold storeUserInput_receive. simpl. unfold testCallState_Receive. simpl.
  destruct (decide (i call = "")) as [Hempty|Hinput].
  - eexists. split.
    { do 2 f_equal. symmetry. apply bool_decide_eq_false. by intros [? _]. }
    by repeat split.
  - eexists. split.
    { do 2 f_equal. apply bool_decide_ext. split; [done | by intros [_ ?]]. }
    by repeat split.
Qed.

(** C4. When the receive of a StoreUserInput block times out, [Run]
    returns the link of the Success branch without error, in the state the
    receive left: nothing is stored after it.  On the test connector,
    whose receive times out on an empty input and on the input Timeout,
    the system state (the last input with it), the external and contact
    stores and the event log are as they were before the run, and the
    prompt sent before the receive is still in place. *)
Theorem storeUserInput_Run_timeout (m : Module_) :
  flow.Type_ m = ModuleStoreUserInput →
  (∀ (St : Type) (C : CallConnector St) unmarshal (call : St) p timeout
     call' entry,
     unmarshal call (Parameters m) = inl p →
     Atoi (Timeout p) = inl timeout →
     storeUserInput_receive is_namespace_char is_key_char call p timeout =
       (call', (entry, false)) →
     storeUserInput_Run unmarshal is_namespace_char is_key_char m call =
       Returns call' (GetLink (Branches m) BranchSuccess) None) ∧
  (∀ unmarshal (call : testCallState) p timeout,
     unmarshal call (Parameters m) = inl p →
     Atoi (Timeout p) = inl timeout →
     i call = "" ∨ i call = "Timeout" →
     ∃ call',
       storeUserInput_Run unmarshal is_namespace_char is_key_char m call =
         Returns call' (GetLink (Branches m) BranchSuccess) None ∧
       system call' !! SystemLastUserInput = system call !! SystemLastUserInput ∧
       system call' = system call ∧
       external call' = external call ∧
       contactData call' = contactData call ∧
       flowStart call' = flowStart call ∧
       events call' = events call ∧
       o call' = storeUserInput_prompt is_namespace_char is_key_char call p).
Proof.
  intros Htype. split.
  - intros St C unmarshal call p timeout call' entry Hp Htimeout Hreceive.
    by eapply storeUserInput_Run_timed_out.
  - intros unmarshal call p timeout Hp Htimeout Hinput.
    destruct (testCallState_receive call p timeout)
      as (call' & Hreceive & Ho & _ & _ & Hsystem & Hexternal & Hcontact & Hflow & Hevents).
    rewrite bool_decide_eq_false_2 in Hreceive by (intros [? ?]; by destruct Hinput).
    exists call'. split; [by eapply storeUserInput_Run_timed_out|].
    by rewrite Hsystem.
Qed.


End storeUserInput.

Lemma storeUserInput_Run_timeout_witness :
  ∃ call',
    storeUserInput_test_Run jsonOK state_timeout =
      Returns call' (Some "00000000-0000-4000-0000-000000000001") None ∧
    system call' !! SystemLastUserInput = None ∧
    events call' = [] ∧
    o call' = "<speak>Please enter digits 1 and 3 of your passcode.</speak>".
Proof.
  destruct (storeUserInput_Run_timeout is_letter is_letter_or_digit jsonOK eq_refl)
    as [_ Htest].
  edestruct (Htest unmarshal_storeUserInputParams state_timeout)
    as (call' & Hrun & Hlast & _ & _ & _ & _ & Hevents & Ho).
  { reflexivity. }
  { reflexivity. }
  { right. reflexivity. }
  exists call'. split; [exact Hrun|].
  split; [by rewrite Hlast|]. split; [by rewrite Hevents|].
  rewrite Ho. by vm_compute.
Defined.


Lemma StartCall_error_iff_unregistered_witness :
  let main := {| Modules := []; Start := "first-block"; MetadataName := "main" |} in
  let StartCall := simulator.StartCall string id ModuleID (λ _ _ start, start) in
  StartCall "+441234567890"
    (simulator.configured id
       [ simulator.DoLoadFlow main;
         simulator.DoSetStartingFlowFor "+441234567890" "main" ]) =
    (Some "first-block", None) ∧
  (∃ err, StartCall "+441234567890" simulator.New = (None, Some err)) ∧
  (∃ err,
     StartCall ""
       (simulator.configured id
          [ simulator.DoLoadFlow main; simulator.DoSetStartingFlowFor "" "main" ]) =
       (None, Some err)).
Proof.
  intros main StartCall. split; [|split].
  - destruct (StartCall_error_iff_unregistered id string id ModuleID
                (λ _ _ start, start) "+441234567890") as [Hstate _].
    apply (proj2 (Hstate
             (simulator.configured id
                [ simulator.DoLoadFlow main;
                  simulator.DoSetStartingFlowFor "+441234567890" "main" ])) main).
    + discriminate.
    + reflexivity.
  - destruct (StartCall_error_iff_unregistered id string id ModuleID
                (λ _ _ start, start) "+441234567890") as [Hstate _].
    apply (proj1 (Hstate simulator.New)). right. reflexivity.
  - destruct (StartCall_error_iff_unregistered id string id ModuleID
                (λ _ _ start, start) "") as [_ Hhistory].
    apply (proj1 (Hhistory
             [ simulator.DoLoadFlow main; simulator.DoSetStartingFlowFor "" "main" ])).
    left. reflexivity.
Defined.

(** ** The cases of the package's tests *)

(** [TestMakeRunner] *)
Example TestMakeRunner :
  MakeRunner (block "StoreUserInput" "" [] []) =
    storeUserInput (block "StoreUserInput" "" [] []) ∧
  MakeRunner (block "CheckAttribute" "" [] []) =
    checkAttribute (block "CheckAttribute" "" [] []) ∧
  MakeRunner (block "Transfer" "" [] []) = transfer (block "Transfer" "" [] []) ∧
  MakeRunner (block "PlayPrompt" "" [] []) =
    playPrompt (block "PlayPrompt" "" [] []) ∧
  MakeRunner (block "Disconnect" "" [] []) =
    disconnect (block "Disconnect" "" [] []) ∧
  MakeRunner (block "SetQueue" "" [] []) = setQueue (block "SetQueue" "" [] []) ∧
  MakeRunner (block "GetUserInput" "" [] []) =
    getUserInput (block "GetUserInput" "" [] []) ∧
  MakeRunner (block "SetAttributes" "" [] []) =
    setAttributes (block "SetAttributes" "" [] []) ∧
  MakeRunner (block "InvokeExternalResource" "" [] []) =
    invokeExternalResource (block "InvokeExternalResource" "" [] []) ∧
  MakeRunner (block "CheckHoursOfOperation" "" [] []) =
    checkHoursOfOperation (block "CheckHoursOfOperation" "" [] []) ∧
  MakeRunner (block "SetVoice" "" [] []) = setVoice (block "SetVoice" "" [] []) ∧
  MakeRunner (block "WhatIsThisIDontEven" "" [] []) =
    passthrough (block "WhatIsThisIDontEven" "" [] []).
Proof. repeat split. Qed.

(** [TestStoreUserInput], case by case. *)
Example TestStoreUserInput_wrong_module :
  check (storeUserInput_test_Run jsonBadMod testCallState_init) =
    Some {| next := None;
            err := Some (errorString
                     "module of type Transfer being run as storeUserInput");
            sys := []; prompt := ""; rcvCount := 0; rcvTimeout := 0;
            rcvTerminator := "000"%char; evt := [] |}.
Proof. vm_compute. reflexivity. Qed.

Example TestStoreUserInput_missing_parameter :
  check (storeUserInput_test_Run jsonBadParam testCallState_init) =
    Some {| next := None;
            err := Some (errorString "missing parameter Text");
            sys := []; prompt := ""; rcvCount := 0; rcvTimeout := 0;
            rcvTerminator := "000"%char; evt := [] |}.
Proof. vm_compute. reflexivity. Qed.

Example TestStoreUserInput_bad_timeout :
  check (storeUserInput_test_Run jsonBadTimeout testCallState_init) =
    Some {| next := None;
            err := Some (NumError "Atoi" "fishcake" ErrSyntax);
            sys := []; prompt := ""; rcvCount := 0; rcvTimeout := 0;
            rcvTerminator := "000"%char; evt := [] |}.
Proof. vm_compute. reflexivity. Qed.

Example TestStoreUserInput_timeout :
  check (storeUserInput_test_Run jsonOK state_timeout) =
    Some {| next := Some "00000000-0000-4000-0000-000000000001";
            err := None; sys := [];
            prompt := "<speak>Please enter digits 1 and 3 of your passcode.</speak>";
            rcvCount := 8; rcvTimeout := 7 * Second;
            rcvTerminator := "#"%char; evt := [] |}.
Proof. vm_compute. reflexivity. Qed.

Example TestStoreUserInput_success :
  check (storeUserInput_test_Run jsonOK state_success) =
    Some {| next := Some "00000000-0000-4000-0000-000000000001";
            err := None; sys := [(SystemLastUserInput, "12345678")];
            prompt := "<speak>Please enter digits 1 and 3 of your passcode.</speak>";
            rcvCount := 8; rcvTimeout := 7 * Second;
            rcvTerminator := "#"%char; evt := [] |}.
Proof. vm_compute. reflexivity. Qed.

Example TestStoreUserInput_success_encrypted :
  check (storeUserInput_test_Run jsonOKEncrypted state_encrypted) =
    Some {| next := Some "00000000-0000-4000-0000-000000000001";
            err := None;
            sys := [(SystemLastUserInput,
                     EncodeToString
                       (list_byte_of_string "<encrypt>12345678</encrypt>"))];
            prompt := "hello"; rcvCount := 8; rcvTimeout := 7 * Second;
            rcvTerminator := "#"%char; evt := [] |}.
Proof. vm_compute. reflexivity. Qed.

Example TestStoreUserInput_success_custom_terminator :
  check (storeUserInput_test_Run jsonOKCustomTerminator state_custom_terminator) =
    Some {| next := Some "00000000-0000-4000-0000-000000000001";
            err := None; sys := [(SystemLastUserInput, "12345678")];
            prompt := "hello"; rcvCount := 8; rcvTimeout := 7 * Second;
            rcvTerminator := "0"%char; evt := [] |}.
Proof. vm_compute. reflexivity. Qed.

(** The test vectors of RFC 4648 for the standard encoding, and the value
    the encrypted case expects. *)
Example EncodeToString_vectors :
  EncodeToString (list_byte_of_string "") = "" ∧
  EncodeToString (list_byte_of_string "f") = "Zg==" ∧
  EncodeToString (list_byte_of_string "fo") = "Zm8=" ∧
  EncodeToString (list_byte_of_string "foo") = "Zm9v" ∧
  EncodeToString (list_byte_of_string "foob") = "Zm9vYg==" ∧
  EncodeToString (list_byte_of_string "fooba") = "Zm9vYmE=" ∧
  EncodeToString (list_byte_of_string "foobar") = "Zm9vYmFy" ∧
  EncodeToString (list_byte_of_string "<encrypt>12345678</encrypt>") =
    "PGVuY3J5cHQ+MTIzNDU2Nzg8L2VuY3J5cHQ+".
Proof. repeat split. Qed.

Example Atoi_cases :
  Atoi "7" = inl 7%Z ∧ Atoi "-12" = inl (-12)%Z ∧ Atoi "+3" = inl 3%Z ∧
  Atoi "" = inr (NumError "Atoi" "" ErrSyntax) ∧
  Atoi "+" = inr (NumError "Atoi" "+" ErrSyntax) ∧
  Atoi "fishcake" = inr (NumError "Atoi" "fishcake" ErrSyntax) ∧
  Atoi "9223372036854775807" = inl 9223372036854775807%Z ∧
  Atoi "9223372036854775808" =
    inr (NumError "Atoi" "9223372036854775808" ErrRange).
Proof. repeat split. Qed.

(** * Further properties of the code *)

(** ** Parameter and branch lists *)

Lemma Get_cons_eq p rest named :
  Name p = named → Get (p :: rest) named = (p, true).
Proof. intros Heq. simpl. by rewrite decide_True. Qed.

Lemma Get_cons_ne p rest named :
  Name p ≠ named → Get (p :: rest) named = Get rest named.
Proof. intros Hne. simpl. by rewrite decide_False. Qed.

Lemma Get_missing (mpl : ModuleParameterList) named :
  Forall (λ p, Name p ≠ named) mpl ↔ Get mpl named = (ModuleParameter_zero, false).
Proof.
  induction mpl as [|p rest IH].
  - split; [reflexivity | constructor].
  - destruct (decide (Name p = named)) as [Heq|Hne].
    + rewrite Get_cons_eq by done. split; [|discriminate].
      intros Hall. inversion Hall; subst. contradiction.
    + rewrite Get_cons_ne by done. rewrite <- IH. split.
      * by inversion 1.
      * by constructor.
Qed.

Lemma Get_found (mpl : ModuleParameterList) named p :
  Get mpl named = (p, true) ↔
  ∃ before after,
    mpl = before ++ p :: after ∧
    Forall (λ q, Name q ≠ named) before ∧ Name p = named.
Proof.
  induction mpl as [|q rest IH].
  - split; [discriminate|].
    intros (before & after & Heq & _). by destruct before.
  - destruct (decide (Name q = named)) as [Heq|Hne].
    + rewrite Get_cons_eq by done. split.
      * intros [= <-]. by exists [], rest.
      * intros ([|q' before] & after & Hl & Hall & Hp);
          simpl in Hl; injection Hl as -> ->; [done|].
        inversion Hall; subst. contradiction.
    + rewrite Get_cons_ne by done. rewrite IH. split.
      * intros (before & after & -> & Hall & Hp).
        exists (q :: before), after. repeat split; auto.
      * intros ([|q' before] & after & Hl & Hall & Hp);
          simpl in Hl; injection Hl as -> ->; [contradiction|].
        inversion Hall; subst. by exists before, after.
Qed.

Lemma Get_not_found_zero (mpl : ModuleParameterList) named p :
  Get mpl named = (p, false) → p = ModuleParameter_zero.
Proof.
  induction mpl as [|q rest IH]; simpl; [by intros [= <-]|].
  case_decide; [discriminate | exact IH].
Qed.

(** X1. [Get] answers with the first parameter of the list, in order, that
    has the name asked for, and reports it found; it reports nothing found
    exactly when no parameter of the list has the name, and then the
    parameter it hands back is the zero value (its [Value] is [nil]). *)
Theorem Get_first_match (mpl : ModuleParameterList) (named : string) :
  (∀ p, Get mpl named = (p, true) ↔
        ∃ before after,
          mpl = before ++ p :: after ∧
          Forall (λ q, Name q ≠ named) before ∧ Name p = named) ∧
  (Get mpl named = (ModuleParameter_zero, false) ↔
   Forall (λ p, Name p ≠ named) mpl) ∧
  (∀ p, Get mpl named = (p, false) →
        p = ModuleParameter_zero ∧ Value p = JNull ∧
        Forall (λ q, Name q ≠ named) mpl).
Proof.
  split; [|split].
  - intros p. apply Get_found.
  - symmetry. apply Get_missing.
  - intros p Hget. pose proof (Get_not_found_zero _ _ _ Hget) as ->.
    split; [done|]. split; [done|]. by apply Get_missing.
Qed.

Lemma Get_first_match_witness :
  Get [parameter "BlindTransfer" (JString "yes");
       parameter "BlindTransfer" (JBool true)] "BlindTransfer" =
    (parameter "BlindTransfer" (JString "yes"), true) ∧
  Get [parameter "BlindTransfer" (JBool true)] "PhoneNumber" =
    (ModuleParameter_zero, false).
Proof.
  split.
  - apply (Get_first_match _ "BlindTransfer").
    by exists [], [parameter "BlindTransfer" (JBool true)].
  - apply (Get_first_match _ "PhoneNumber").
    repeat constructor. discriminate.
Defined.

Lemma BranchList_List_filter (mbl : ModuleBranchList) named :
  BranchList_List mbl named = filter (λ b, Condition b = named) mbl.
Proof.
  induction mbl as [|b rest IH]; [reflexivity|]. simpl.
  rewrite filter_cons. case_decide; by rewrite IH.
Qed.

Lemma ParameterList_List_filter (mpl : ModuleParameterList) named :
  ParameterList_List mpl named = filter (λ p, Name p = named) mpl.
Proof.
  induction mpl as [|p rest IH]; [reflexivity|]. simpl.
  rewrite filter_cons. case_decide; by rewrite IH.
Qed.

(** X2. [ModuleBranchList.List] keeps exactly the branches that carry the
    label, in their order in the list and with their repetitions, and
    [GetLink] is the transition of the first branch that [List] returns:
    the two lookups agree, and [GetLink] finds nothing exactly when [List]
    is empty. *)
Theorem BranchList_List_GetLink (mbl : ModuleBranchList)
    (named : ModuleBranchCondition) :
  BranchList_List mbl named = filter (λ b, Condition b = named) mbl ∧
  (∀ b, b ∈ BranchList_List mbl named ↔ b ∈ mbl ∧ Condition b = named) ∧
  BranchList_List mbl named `sublist_of` mbl ∧
  GetLink mbl named = Transition <$> head (BranchList_List mbl named) ∧
  (GetLink mbl named = None ↔ BranchList_List mbl named = []).
Proof.
  assert (GetLink mbl named = Transition <$> head (BranchList_List mbl named))
    as Hhead.
  { induction mbl as [|b rest IH]; [reflexivity|]. simpl.
    case_decide; [reflexivity | exact IH]. }
  split; [apply BranchList_List_filter|]. split; [|split; [|split]].
  - intros b. rewrite BranchList_List_filter, list_elem_of_filter.
    split; by intros [? ?].
  - rewrite BranchList_List_filter. apply sublist_filter.
  - exact Hhead.
  - rewrite Hhead. by destruct (BranchList_List mbl named).
Qed.

(** X3. [ModuleParameterList.List] keeps exactly the parameters that have
    the name, in order, and [Get] is its first element: found when [List]
    is not empty, the zero parameter and not found when it is. *)
Theorem ParameterList_List_Get (mpl : ModuleParameterList) (named : string) :
  ParameterList_List mpl named = filter (λ p, Name p = named) mpl ∧
  (∀ p, p ∈ ParameterList_List mpl named ↔ p ∈ mpl ∧ Name p = named) ∧
  ParameterList_List mpl named `sublist_of` mpl ∧
  Get mpl named =
    match ParameterList_List mpl named with
    | p :: _ => (p, true)
    | [] => (ModuleParameter_zero, false)
    end.
Proof.
  split; [apply ParameterList_List_filter|]. split; [|split].
  - intros p. rewrite ParameterList_List_filter, list_elem_of_filter.
    split; by intros [? ?].
  - rewrite ParameterList_List_filter. apply sublist_filter.
  - induction mpl as [|p rest IH]; [reflexivity|]. simpl.
    case_decide; [reflexivity | exact IH].
Qed.

(** ** SetQueue *)

Section setQueue_facts.
Context {St : Type} `{!CallConnector St}.

Lemma setQueue_Run_missing (m : Module_) (call : St) :
  flow.Type_ m = ModuleSetQueue →
  Forall (λ p, Name p ≠ "Queue") (Parameters m) →
  setQueue_Run m call =
    Returns call None (Some (errorString "missing Queue parameter")).
Proof.
  intros Htype Hmissing. unfold setQueue_Run. type_check_passes.
  by rewrite (proj1 (Get_missing _ _) Hmissing).
Qed.

Lemma setQueue_Run_stores (m : Module_) (call : St) p arn :
  flow.Type_ m = ModuleSetQueue →
  Get (Parameters m) "Queue" = (p, true) → Value p = JString arn →
  setQueue_Run m call =
    Returns
      (SetSystem SystemQueueName (ResourceName p)
         (SetSystem SystemQueueARN arn call))
      (GetLink (Branches m) BranchSuccess) None.
Proof.
  intros Htype Hget Hvalue. unfold setQueue_Run. type_check_passes.
  by rewrite Hget, Hvalue.
Qed.

Lemma setQueue_Run_panics (m : Module_) (call : St) p :
  flow.Type_ m = ModuleSetQueue →
  Get (Parameters m) "Queue" = (p, true) → as_string (Value p) = None →
  setQueue_Run m call = Panics.
Proof.
  intros Htype Hget Hvalue. unfold setQueue_Run. type_check_passes.
  rewrite Hget. simpl. by destruct (Value p).
Qed.

End setQueue_facts.

(** X4. What [setQueue.Run] does with a SetQueue block, on any connector.
    Without a Queue parameter it returns the error "missing Queue
    parameter", no successor, and stores nothing.  With a Queue parameter
    whose value is not a string it panics (the type assertion is
    unguarded).  With a textual one it stores the value as the queue ARN
    and the parameter's resource name as the queue name, and returns the
    link of the Success branch; on the test connector these are the only
    two keys of the system state that change, and no event is emitted. *)
Theorem setQueue_Run_cases (m : Module_) :
  flow.Type_ m = ModuleSetQueue →
  (∀ (St : Type) (C : CallConnector St) (call : St),
     (Forall (λ p, Name p ≠ "Queue") (Parameters m) →
      setQueue_Run m call =
        Returns call None (Some (errorString "missing Queue parameter"))) ∧
     (∀ p, Get (Parameters m) "Queue" = (p, true) →
           as_string (Value p) = None → setQueue_Run m call = Panics) ∧
     (∀ p arn, Get (Parameters m) "Queue" = (p, true) →
               Value p = JString arn →
               setQueue_Run m call =
                 Returns
                   (SetSystem SystemQueueName (ResourceName p)
                      (SetSystem SystemQueueARN arn call))
                   (GetLink (Branches m) BranchSuccess) None)) ∧
  (∀ (call : testCallState) p arn,
     Get (Parameters m) "Queue" = (p, true) → Value p = JString arn →
     ∃ call',
       setQueue_Run m call =
         Returns call' (GetLink (Branches m) BranchSuccess) None ∧
       system call' !! SystemQueueARN = Some arn ∧
       system call' !! SystemQueueName = Some (ResourceName p) ∧
       (∀ key, key ≠ SystemQueueARN → key ≠ SystemQueueName →
               system call' !! key = system call !! key) ∧
       events call' = events call ∧ external call' = external call ∧
       contactData call' = contactData call).
Proof.
  intros Htype. split.
  - intros St C call. split; [|split].
    + by apply setQueue_Run_missing.
    + intros p. by apply setQueue_Run_panics.
    + intros p arn. by apply setQueue_Run_stores.
  - intros call p arn Hget Hvalue. eexists. split.
    { by apply setQueue_Run_stores. }
    simpl. split; [|split; [|split]].
    + by rewrite lookup_insert_ne, lookup_insert_eq.
    + by rewrite lookup_insert_eq.
    + intros key Harn Hname. by rewrite !lookup_insert_ne.
    + done.
Qed.

Lemma setQueue_Run_cases_witness :
  setQueue_Run (block "SetQueue" "" [branch "Success" "s"] []) testCallState_init =
    Returns testCallState_init None
      (Some (errorString "missing Queue parameter")) ∧
  setQueue_Run
    (block "SetQueue" "" [branch "Success" "s"] [parameter "Queue" (JNumber 7)])
    testCallState_init = Panics ∧
  ∃ call',
    setQueue_Run
      (block "SetQueue" "" [branch "Success" "s"]
         [ {| Name := "Queue"; Key := ""; Value := JString "arn:queue/1";
              Namespace := None; ResourceName := "support" |} ])
      testCallState_init = Returns call' (Some "s") None ∧
    system call' !! SystemQueueARN = Some "arn:queue/1" ∧
    system call' !! SystemQueueName = Some "support".
Proof.
  split; [|split].
  - destruct (setQueue_Run_cases (block "SetQueue" "" [branch "Success" "s"] [])
                eq_refl) as [Hany _].
    apply (Hany testCallState _ testCallState_init). constructor.
  - destruct (setQueue_Run_cases
                (block "SetQueue" "" [branch "Success" "s"]
                   [parameter "Queue" (JNumber 7)]) eq_refl) as [Hany _].
    destruct (Hany testCallState _ testCallState_init) as (_ & Hpanic & _).
    by apply (Hpanic (parameter "Queue" (JNumber 7))).
  - destruct (setQueue_Run_cases
                (block "SetQueue" "" [branch "Success" "s"]
                   [ {| Name := "Queue"; Key := ""; Value := JString "arn:queue/1";
                        Namespace := None; ResourceName := "support" |} ])
                eq_refl) as [_ Htest].
    destruct (Htest testCallState_init _ "arn:queue/1" eq_refl eq_refl)
      as (call' & Hrun & Harn & Hname & _).
    exists call'. split; [exact Hrun|]. split; [exact Harn | exact Hname].
Defined.

(** ** SetQueue, then Transfer to the queue, then the assertion *)

(** X5. On the test connector, a SetQueue block with a textual Queue
    parameter followed by a Transfer block with Queue target ends the call
    with exactly one more event in the log, the queue transfer to the ARN
    and resource name of the Queue parameter (an empty resource name
    included: the queue then counts as set, with the empty name).  The
    matcher of [ToQueue] is applicable to that event, reports the resource
    name, and passes exactly for that name. *)
Theorem setQueue_then_transfer (mq mt : Module_) (call : testCallState) p arn :
  flow.Type_ mq = ModuleSetQueue →
  Get (Parameters mq) "Queue" = (p, true) → Value p = JString arn →
  flow.Type_ mt = ModuleTransfer → Target mt = TargetQueue →
  ∃ call1 call2,
    setQueue_Run mq call =
      Returns call1 (GetLink (Branches mq) BranchSuccess) None ∧
    transfer_Run mt call1 = Returns call2 None None ∧
    events call2 = events call ++ [QueueTransferEvent arn (ResourceName p)] ∧
    ∀ name,
      flowtest.queueTransferMatcher_match {| flowtest.queueName := name |}
        (QueueTransferEvent arn (ResourceName p)) =
      Some (true, bool_decide (ResourceName p = name), ResourceName p).
Proof.
  intros Htype Hget Hvalue Htransfer Htarget. eexists _, _. split.
  { by apply setQueue_Run_stores. }
  split.
  { apply transfer_Run_queue_set; try done.
    - simpl. unfold testCallState_GetSystem. simpl. apply lookup_insert_eq.
    - simpl. unfold testCallState_GetSystem. simpl.
      by rewrite lookup_insert_ne, lookup_insert_eq. }
  split; [done|]. intros name. reflexivity.
Qed.

Lemma setQueue_then_transfer_witness :
  ∃ call1 call2,
    setQueue_Run
      (block "SetQueue" "" [branch "Success" "s"]
         [parameter "Queue" (JString "arn:queue/1")])
      testCallState_init = Returns call1 (Some "s") None ∧
    transfer_Run (block "Transfer" "Queue" [branch "Error" "e"] []) call1 =
      Returns call2 None None ∧
    events call2 = [QueueTransferEvent "arn:queue/1" ""].
Proof.
  destruct (setQueue_then_transfer
              (block "SetQueue" "" [branch "Success" "s"]
                 [parameter "Queue" (JString "arn:queue/1")])
              (block "Transfer" "Queue" [branch "Error" "e"] [])
              testCallState_init _ "arn:queue/1"
              eq_refl eq_refl eq_refl eq_refl eq_refl)
    as (call1 & call2 & Hset & Htransfer & Hevents & _).
  exists call1, call2. split; [exact Hset|]. split; [exact Htransfer | exact Hevents].
Defined.

(** ** Transfer to a flow, and what Transfer never does *)

Section transfer_facts.
Context {St : Type} `{!CallConnector St}.

Lemma transfer_Run_flow_missing (m : Module_) (call : St) :
  flow.Type_ m = ModuleTransfer → Target m = TargetFlow →
  Forall (λ p, Name p ≠ "ContactFlowId") (Parameters m) →
  transfer_Run m call =
    Returns call None (Some (errorString "missing ContactFlowId parameter")).
Proof.
  intros Htype Htarget Hmissing. unfold transfer_Run. type_check_passes.
  rewrite Htarget. simpl. by rewrite (proj1 (Get_missing _ _) Hmissing).
Qed.

Lemma transfer_Run_flow_unknown (m : Module_) (call : St) cfid :
  flow.Type_ m = ModuleTransfer → Target m = TargetFlow →
  Get (Parameters m) "ContactFlowId" = (cfid, true) →
  GetFlowStart (ResourceName cfid) call = None →
  transfer_Run m call = Returns call (GetLink (Branches m) BranchError) None.
Proof.
  intros Htype Htarget Hget Hstart. unfold transfer_Run. type_check_passes.
  rewrite Htarget. simpl. by rewrite Hget, Hstart.
Qed.

Lemma transfer_Run_flow_found (m : Module_) (call : St) cfid start arn :
  flow.Type_ m = ModuleTransfer → Target m = TargetFlow →
  Get (Parameters m) "ContactFlowId" = (cfid, true) →
  GetFlowStart (ResourceName cfid) call = Some start →
  Value cfid = JString arn →
  transfer_Run m call =
    Returns (Emit (FlowTransferEvent arn (ResourceName cfid)) call)
      (Some start) None.
Proof.
  intros Htype Htarget Hget Hstart Hvalue. unfold transfer_Run.
  type_check_passes. rewrite Htarget. simpl. by rewrite Hget, Hstart, Hvalue.
Qed.

Lemma transfer_Run_flow_panics (m : Module_) (call : St) cfid start :
  flow.Type_ m = ModuleTransfer → Target m = TargetFlow →
  Get (Parameters m) "ContactFlowId" = (cfid, true) →
  GetFlowStart (ResourceName cfid) call = Some start →
  as_string (Value cfid) = None →
  transfer_Run m call = Panics.
Proof.
  intros Htype Htarget Hget Hstart Hvalue. unfold transfer_Run.
  type_check_passes. rewrite Htarget. simpl. rewrite Hget, Hstart. simpl.
  by destruct (Value cfid).
Qed.

(** Every way [transfer.Run] returns: with an error, in the state it was
    called in and without successor; or without error, in that state or
    after one [Emit] of a transfer event. *)
Lemma transfer_Run_returns (m : Module_) (call call' : St) next err :
  transfer_Run m call = Returns call' next err →
  (∃ e, err = Some e ∧ call' = call ∧ next = None) ∨
  (err = None ∧
   (call' = call ∨
    ∃ evt, call' = Emit evt call ∧
           event.Type_ evt ∈ [TransferFlowType; TransferQueueType;
                              TransferNumberType])).
Proof.
  unfold transfer_Run. intros Hrun.
  repeat (case_match; try discriminate);
    injection Hrun as <- <- <-;
    first [ left; by eexists
          | right; split; [done|]; by left
          | right; split; [done|]; right; eexists; split; [done|];
            simpl; set_solver ].
Qed.

End transfer_facts.

(** X6. What [transfer.Run] does with a Transfer block with Flow target.
    Without a ContactFlowId parameter it returns the error "missing
    ContactFlowId parameter".  With one, the flow is looked up by the
    parameter's resource name: when the connector knows no start for it,
    [Run] returns the link of the Error branch and emits nothing, whatever
    the parameter's value; when it does, [Run] emits one flow-transfer
    event with the value as ARN and the resource name as name and
    continues at the start of that flow, and panics if the value is not a
    string.  The test connector knows no start for a name that is absent
    from its table or mapped to the empty identifier. *)
Theorem transfer_Run_flow (m : Module_) :
  flow.Type_ m = ModuleTransfer → Target m = TargetFlow →
  (∀ (St : Type) (C : CallConnector St) (call : St),
     (Forall (λ p, Name p ≠ "ContactFlowId") (Parameters m) →
      transfer_Run m call =
        Returns call None
          (Some (errorString "missing ContactFlowId parameter"))) ∧
     (∀ cfid, Get (Parameters m) "ContactFlowId" = (cfid, true) →
        (GetFlowStart (ResourceName cfid) call = None →
         transfer_Run m call =
           Returns call (GetLink (Branches m) BranchError) None) ∧
        (∀ start, GetFlowStart (ResourceName cfid) call = Some start →
           (∀ arn, Value cfid = JString arn →
              transfer_Run m call =
                Returns (Emit (FlowTransferEvent arn (ResourceName cfid)) call)
                  (Some start) None) ∧
           (as_string (Value cfid) = None → transfer_Run m call = Panics)))) ∧
  (∀ (call : testCallState) cfid,
     Get (Parameters m) "ContactFlowId" = (cfid, true) →
     (flowStart call !! ResourceName cfid = None ∨
      flowStart call !! ResourceName cfid = Some "" →
      transfer_Run m call =
        Returns call (GetLink (Branches m) BranchError) None) ∧
     (∀ start arn,
        flowStart call !! ResourceName cfid = Some start → start ≠ "" →
        Value cfid = JString arn →
        ∃ call',
          transfer_Run m call = Returns call' (Some start) None ∧
          events call' =
            events call ++ [FlowTransferEvent arn (ResourceName cfid)] ∧
          system call' = system call)).
Proof.
  intros Htype Htarget. split.
  - intros St C call. split; [by apply transfer_Run_flow_missing|].
    intros cfid Hget. split; [by apply transfer_Run_flow_unknown|].
    intros start Hstart. split.
    + intros arn. by apply transfer_Run_flow_found.
    + by apply transfer_Run_flow_panics with (start := start).
  - intros call cfid Hget. split.
    + intros Hunknown. apply transfer_Run_flow_unknown with (cfid := cfid);
        try done.
      simpl. unfold testCallState_GetFlowStart. by destruct Hunknown as [-> | ->].
    + intros start arn Hstart Hne Hvalue. eexists. split.
      { apply transfer_Run_flow_found with (cfid := cfid); try done.
        simpl. unfold testCallState_GetFlowStart. rewrite Hstart. simpl.
        by rewrite decide_False. }
      done.
Qed.

Lemma transfer_Run_flow_witness :
  transfer_Run
    (block "Transfer" "Flow" [branch "Error" "e"]
       [contactFlowId "arn:flow/1" "main"]) testCallState_init =
    Returns testCallState_init (Some "e") None.
Proof.
  destruct (transfer_Run_flow
              (block "Transfer" "Flow" [branch "Error" "e"]
                 [contactFlowId "arn:flow/1" "main"]) eq_refl eq_refl)
    as [_ Htest].
  destruct (Htest testCallState_init (contactFlowId "arn:flow/1" "main") eq_refl)
    as [Hunknown _].
  apply Hunknown. left. reflexivity.
Defined.

(** X7. [transfer.Run] never touches the call's stores and never emits
    more than one event.  Whenever it returns, on any connector, it either
    returns an error, without successor and in the very state it was
    called in (so without event), or returns no error, in that state or
    after a single [Emit] of a flow-, queue- or number-transfer event.
    On the test connector: the system state, the external and contact
    stores and the last prompt are as before, and the log has grown by at
    most one event. *)
Theorem transfer_Run_frame (m : Module_) :
  (∀ (St : Type) (C : CallConnector St) (call call' : St) next err,
     transfer_Run m call = Returns call' next err →
     (∃ e, err = Some e ∧ call' = call ∧ next = None) ∨
     (err = None ∧
      (call' = call ∨
       ∃ evt, call' = Emit evt call ∧
              event.Type_ evt ∈ [TransferFlowType; TransferQueueType;
                                 TransferNumberType]))) ∧
  (∀ (call call' : testCallState) next err,
     transfer_Run m call = Returns call' next err →
     system call' = system call ∧ external call' = external call ∧
     contactData call' = contactData call ∧ flowStart call' = flowStart call ∧
     o call' = o call ∧
     (events call' = events call ∨
      ∃ evt, events call' = events call ++ [evt] ∧ err = None)).
Proof.
  split.
  - intros St C call call' next err. apply transfer_Run_returns.
  - intros call call' next err Hrun.
    destruct (transfer_Run_returns m call call' next err Hrun)
      as [(e & -> & -> & ->) | [-> [-> | (evt & -> & _)]]].
    + repeat split; by left.
    + repeat split; by left.
    + repeat split. right. by exists evt.
Qed.

Lemma transfer_Run_frame_witness :
  ∃ call',
    transfer_Run (block "Transfer" "Queue" [] []) state_queue_set =
      Returns call' None None ∧
    system call' = system state_queue_set ∧
    (events call' = events state_queue_set ∨
     ∃ evt, events call' = events state_queue_set ++ [evt] ∧ None = @None error).
Proof.
  destruct (transfer_Run_frame (block "Transfer" "Queue" [] [])) as [_ Htest].
  exists (Emit (QueueTransferEvent "arn:aws:connect:queue/1" "support")
            state_queue_set).
  split; [reflexivity|].
  destruct (Htest state_queue_set
              (Emit (QueueTransferEvent "arn:aws:connect:queue/1" "support")
                 state_queue_set) None None eq_refl)
    as (Hsystem & _ & _ & _ & _ & Hevents).
  split; [exact Hsystem | exact Hevents].
Defined.

(** ** Maps filled by a loop *)

(** A loop [for _, a := range l { m[key(a)] = val(a) }] leaves the keys
    that no element has as they were, and gives the key of an element that
    no later element shares the value of that element. *)
Lemma lookup_foldl_insert_other {A V : Type} (key : A → string) (val : A → V)
    (l : list A) (m : gmap string V) (k : string) :
  Forall (λ a, key a ≠ k) l →
  foldl (λ m a, <[key a := val a]> m) m l !! k = m !! k.
Proof.
  revert m. induction l as [|a l IH]; intros m Hall; [done|].
  inversion Hall; subst. simpl. rewrite IH by done. by rewrite lookup_insert_ne.
Qed.

Lemma lookup_foldl_insert_last {A V : Type} (key : A → string) (val : A → V)
    (before : list A) (a : A) (after : list A) (m : gmap string V) :
  Forall (λ b, key b ≠ key a) after →
  foldl (λ m a, <[key a := val a]> m) m (before ++ a :: after) !! key a =
    Some (val a).
Proof.
  intros Hafter. rewrite foldl_app. simpl.
  rewrite lookup_foldl_insert_other by done. apply lookup_insert_eq.
Qed.

(** A key that the loop gives a value has the value of some element. *)
Lemma lookup_foldl_insert_Some {A V : Type} (key : A → string) (val : A → V)
    (l : list A) (m : gmap string V) (k : string) (v : V) :
  foldl (λ m a, <[key a := val a]> m) m l !! k = Some v →
  m !! k = Some v ∨ ∃ a, a ∈ l ∧ key a = k ∧ val a = v.
Proof.
  revert m. induction l as [|a l IH]; intros m; simpl; [by left|].
  intros [Hm | (b & Hb & Hkey & Hval)]%IH.
  - destruct (decide (key a = k)) as [<-|Hne].
    + rewrite lookup_insert_eq in Hm. injection Hm as <-.
      right. exists a. split; [by left | done].
    + rewrite lookup_insert_ne in Hm by done. by left.
  - right. exists b. split; [by right | done].
Qed.

(** ** SetAttributes *)

Lemma setAttributes_ContactData (ctx : Context) (attrs : list KeyValue) :
  ContactData
    (foldl (λ ctx a, {| ContactData := <[K a := V a]> (ContactData ctx) |})
       ctx attrs) =
  foldl (λ m a, <[K a := V a]> m) (ContactData ctx) attrs.
Proof.
  revert ctx. induction attrs as [|a attrs IH]; intros ctx; [done|].
  simpl. by rewrite IH.
Qed.

(** X8. What [setAttributes.Run] does with a SetAttributes block, whatever
    the decoding of parameters is.  When the decoding fails, [Run] returns
    its error, no successor, and the context as it was.  When it gives
    the attribute pairs, [Run] returns the link of the Success branch and
    a context in which every key of a pair holds the value of the last
    pair with that key, and every other key holds what it held. *)
Theorem setAttributes_Run_writes UnmarshalParameters (m : Module_) (ctx : Context) :
  flow.Type_ m = ModuleSetAttributes →
  (∀ err junk,
     UnmarshalParameters ctx (Parameters m) = (Some err, junk) →
     setAttributes_Run UnmarshalParameters m ctx = Returns ctx None (Some err)) ∧
  (∀ attrs,
     UnmarshalParameters ctx (Parameters m) = (None, attrs) →
     ∃ ctx',
       setAttributes_Run UnmarshalParameters m ctx =
         Returns ctx' (GetLink (Branches m) BranchSuccess) None ∧
       (∀ before a after,
          attrs = before ++ a :: after → Forall (λ b, K b ≠ K a) after →
          ContactData ctx' !! K a = Some (V a)) ∧
       (∀ k, Forall (λ a, K a ≠ k) attrs →
             ContactData ctx' !! k = ContactData ctx !! k)).
Proof.
  intros Htype. split.
  - intros err junk Hdecode. unfold setAttributes_Run. type_check_passes.
    by rewrite Hdecode.
  - intros attrs Hdecode. eexists. split.
    { unfold setAttributes_Run. type_check_passes. by rewrite Hdecode. }
    rewrite setAttributes_ContactData. split.
    + intros before a after -> Hafter. by apply lookup_foldl_insert_last.
    + intros k Hother. by apply lookup_foldl_insert_other.
Qed.

Lemma setAttributes_Run_writes_witness :
  ∃ ctx',
    setAttributes_Run
      (λ _ _, (None, [ {| K := "lang"; V := "en" |}; {| K := "tier"; V := "gold" |};
                       {| K := "lang"; V := "fr" |} ]))
      (block "SetAttributes" "" [branch "Success" "s"] [])
      {| ContactData := {[ "lang" := "de"; "id" := "42" ]} |} =
      Returns ctx' (Some "s") None ∧
    ContactData ctx' !! "lang" = Some "fr" ∧
    ContactData ctx' !! "tier" = Some "gold" ∧
    ContactData ctx' !! "id" = Some "42".
Proof.
  destruct (setAttributes_Run_writes
              (λ _ _, (None, [ {| K := "lang"; V := "en" |};
                               {| K := "tier"; V := "gold" |};
                               {| K := "lang"; V := "fr" |} ]))
              (block "SetAttributes" "" [branch "Success" "s"] [])
              {| ContactData := {[ "lang" := "de"; "id" := "42" ]} |} eq_refl)
    as [_ Hwrites].
  destruct (Hwrites _ eq_refl) as (ctx' & Hrun & Hlast & Hother).
  exists ctx'. split; [exact Hrun|]. split; [|split].
  - apply (Hlast [ {| K := "lang"; V := "en" |}; {| K := "tier"; V := "gold" |} ]
             {| K := "lang"; V := "fr" |} []); [reflexivity | constructor].
  - apply (Hlast [ {| K := "lang"; V := "en" |} ]
             {| K := "tier"; V := "gold" |} [ {| K := "lang"; V := "fr" |} ]);
      [reflexivity|]. repeat constructor. discriminate.
  - rewrite (Hother "id"); [reflexivity|]. repeat constructor; discriminate.
Defined.

(** ** Loading flows and registering numbers *)

Lemma last_with_key {A : Type} (key : A → string) (l : list A) (k : string) :
  Forall (λ a, key a ≠ k) l ∨
  ∃ before a after,
    l = before ++ a :: after ∧ key a = k ∧ Forall (λ b, key b ≠ k) after.
Proof.
  induction l as [|a l IH] using rev_ind; [left; constructor|].
  destruct (decide (key a = k)) as [Heq|Hne].
  - right. exists l, a, []. by repeat split.
  - destruct IH as [Hall | (before & b & after & -> & Hb & Hafter)].
    + left. apply Forall_app. split; [done|]. by constructor.
    + right. exists before, b, (after ++ [a]). rewrite <- app_assoc.
      repeat split; [done|]. apply Forall_app. split; [done|]. by constructor.
Qed.

Section simulator_facts.
Import simulator.
Variable Dedeprecate : Flow → Flow.
Variable CallConfig : Type.
Variable DestNumber : CallConfig → string.
Variable Call : Type.
Variable newCall : CallConfig → Simulator → ModuleID → Call.

Local Abbreviation LoadFlow' := (LoadFlow Dedeprecate).
Local Abbreviation StartCall' := (StartCall CallConfig DestNumber Call newCall).
Local Abbreviation configured' := (simulator.configured Dedeprecate).

(** X9. After [LoadFlow], the start of the flow is found under the name
    of the flow as [Dedeprecate] returns it, and every block of that flow
    is found under its identifier; of several blocks with one identifier
    the last is found.  The starts of flows of other names, the blocks of
    other identifiers and the starting flows of all numbers are as they
    were. *)
Theorem LoadFlow_lookup (f : Flow) (cs : Simulator) :
  GetFlowStart (MetadataName (Dedeprecate f)) (LoadFlow' f cs) =
    Some (Start (Dedeprecate f)) ∧
  (∀ name, name ≠ MetadataName (Dedeprecate f) →
           GetFlowStart name (LoadFlow' f cs) = GetFlowStart name cs) ∧
  (∀ before m after,
     Modules (Dedeprecate f) = before ++ m :: after →
     Forall (λ m', ID m' ≠ ID m) after →
     GetModule (ID m) (LoadFlow' f cs) = Some m) ∧
  (∀ id, Forall (λ m, ID m ≠ id) (Modules (Dedeprecate f)) →
         GetModule id (LoadFlow' f cs) = GetModule id cs) ∧
  telFlow (LoadFlow' f cs) = telFlow cs.
Proof.
  unfold GetFlowStart, GetModule, simulator.LoadFlow. simpl.
  split; [by rewrite lookup_insert_eq|]. split; [|split; [|split]].
  - intros name Hname. by rewrite lookup_insert_ne.
  - intros before m after -> Hafter.
    by apply (lookup_foldl_insert_last ID (λ m, m)).
  - intros id Hother. by apply (lookup_foldl_insert_other ID (λ m, m)).
  - done.
Qed.

Lemma LoadFlow_modules_twice (l : list Module_) (ms : gmap string Module_) :
  foldl (λ ms m, <[ID m := m]> ms) (foldl (λ ms m, <[ID m := m]> ms) ms l) l =
  foldl (λ ms m, <[ID m := m]> ms) ms l.
Proof.
  apply map_eq. intros id.
  destruct (last_with_key ID l id)
    as [Hother | (before & m & after & -> & <- & Hafter)].
  - by rewrite !(lookup_foldl_insert_other ID (λ m, m)).
  - by rewrite !(lookup_foldl_insert_last ID (λ m, m)).
Qed.

(** X10. Loading a flow a second time changes nothing: the simulator
    after [LoadFlow f] twice in a row is the simulator after [LoadFlow f]
    once. *)
Theorem LoadFlow_twice (f : Flow) (cs : Simulator) :
  LoadFlow' f (LoadFlow' f cs) = LoadFlow' f cs.
Proof.
  unfold simulator.LoadFlow. simpl. f_equal.
  - apply insert_insert_eq.
  - apply LoadFlow_modules_twice.
Qed.

(** X11. [SetStartingFlowFor] fails, with its error and the simulator
    unchanged, exactly when no flow of that name is loaded.  When one is,
    it returns no error, the number starts at that flow, and the starting
    flows of the other numbers, the loaded flows and the blocks are as
    they were. *)
Theorem SetStartingFlowFor_cases (tel flowName : string) (cs : Simulator) :
  ((∃ err, (SetStartingFlowFor tel flowName cs).2 = Some err) ↔
   flows cs !! flowName = None) ∧
  (flows cs !! flowName = None →
   SetStartingFlowFor tel flowName cs =
     (cs, Some (errorString
        "starting flow not found. Load the flow with LoadFlow before calling this method"))) ∧
  (∀ f, flows cs !! flowName = Some f →
     ∃ cs',
       SetStartingFlowFor tel flowName cs = (cs', None) ∧
       telFlow cs' !! tel = Some f ∧
       (∀ tel', tel' ≠ tel → telFlow cs' !! tel' = telFlow cs !! tel') ∧
       flows cs' = flows cs ∧ modules cs' = modules cs).
Proof.
  unfold SetStartingFlowFor. split; [|split].
  - destruct (flows cs !! flowName); simpl.
    + split; [by intros [err [=]] | done].
    + split; [done | eauto].
  - by intros ->.
  - intros f ->. eexists. split; [done|]. simpl.
    split; [by rewrite lookup_insert_eq|]. split; [|done].
    intros tel' Hne. by rewrite lookup_insert_ne.
Qed.

(** X12. A flow loaded and then registered for a non-empty number is
    where calls to that number start: [StartCall] returns, without error,
    the call built from the start block of the flow as [Dedeprecate]
    returned it.  The registration holds the flow as it was when
    registered: whatever flow is loaded afterwards, one of the same name
    included, calls to the number still start at that block. *)
Theorem LoadFlow_SetStartingFlowFor_StartCall (f : Flow) (config : CallConfig)
    (cs : Simulator) :
  DestNumber config ≠ "" →
  ∃ cs1,
    SetStartingFlowFor (DestNumber config) (MetadataName (Dedeprecate f))
      (LoadFlow' f cs) = (cs1, None) ∧
    StartCall' config cs1 =
      (Some (newCall config cs1 (Start (Dedeprecate f))), None) ∧
    ∀ g, StartCall' config (LoadFlow' g cs1) =
           (Some (newCall config (LoadFlow' g cs1) (Start (Dedeprecate f))), None).
Proof.
  intros Hnumber. unfold SetStartingFlowFor.
  assert (flows (LoadFlow' f cs) !! MetadataName (Dedeprecate f) =
          Some (Dedeprecate f)) as ->.
  { unfold simulator.LoadFlow. simpl. apply lookup_insert_eq. }
  eexists. split; [reflexivity|]. split.
  - apply StartCall_success; [done|]. simpl. apply lookup_insert_eq.
  - intros g. apply StartCall_success; [done|]. simpl. apply lookup_insert_eq.
Qed.

Lemma configured_maps (ops : list setup) :
  (∀ name f, flows (configured' ops) !! name = Some f →
     MetadataName f = name ∧ ∃ g, DoLoadFlow g ∈ ops ∧ f = Dedeprecate g) ∧
  (∀ id m, modules (configured' ops) !! id = Some m →
     ID m = id ∧ ∃ g, DoLoadFlow g ∈ ops ∧ m ∈ Modules (Dedeprecate g)) ∧
  (∀ tel f, telFlow (configured' ops) !! tel = Some f →
     ∃ g, DoLoadFlow g ∈ ops ∧ f = Dedeprecate g).
Proof.
  induction ops as [|op ops (IHflows & IHmodules & IHtel)] using rev_ind.
  - unfold simulator.configured. simpl. by repeat split.
  - rewrite configured_snoc.
    assert (∀ g, DoLoadFlow g ∈ ops → DoLoadFlow g ∈ ops ++ [op]) as Hmono.
    { intros g Hg. apply elem_of_app. by left. }
    destruct op as [g|tel' flowName|e]; simpl.
    + split; [|split].
      * intros name f. destruct (decide (MetadataName (Dedeprecate g) = name))
          as [<-|Hne].
        -- rewrite lookup_insert_eq. intros [= <-]. split; [done|].
           exists g. split; [|done]. apply elem_of_app. right. by left.
        -- rewrite lookup_insert_ne by done.
           intros (Hname & g' & Hg' & ->)%IHflows. eauto.
      * intros id m [Hold | (m' & Hm' & <- & <-)]%lookup_foldl_insert_Some.
        -- destruct (IHmodules _ _ Hold) as (Hid & g' & Hg' & Hin). eauto.
        -- split; [done|]. exists g. split; [|done].
           apply elem_of_app. right. by left.
      * intros tel f (g' & Hg' & ->)%IHtel. eauto.
    + unfold SetStartingFlowFor.
      destruct (flows (configured' ops) !! flowName) as [f'|] eqn:Hloaded; simpl.
      * split; [|split].
        -- intros name f (Hname & g' & Hg' & ->)%IHflows. eauto.
        -- intros id m (Hid & g' & Hg' & Hin)%IHmodules. eauto.
        -- intros tel f. destruct (decide (tel' = tel)) as [<-|Hne].
           ++ rewrite lookup_insert_eq. intros [= <-].
              destruct (IHflows _ _ Hloaded) as (_ & g' & Hg' & ->). eauto.
           ++ rewrite lookup_insert_ne by done.
              intros (g' & Hg' & ->)%IHtel. eauto.
      * split; [|split].
        -- intros name f (Hname & g' & Hg' & ->)%IHflows. eauto.
        -- intros id m (Hid & g' & Hg' & Hin)%IHmodules. eauto.
        -- intros tel f (g' & Hg' & ->)%IHtel. eauto.
    + split; [|split].
      * intros name f (Hname & g' & Hg' & ->)%IHflows. eauto.
      * intros id m (Hid & g' & Hg' & Hin)%IHmodules. eauto.
      * intros tel f (g' & Hg' & ->)%IHtel. eauto.
Qed.

(** X13. On a simulator set up from [New] by any sequence of [LoadFlow],
    [SetStartingFlowFor] and [SetEncryption], the lookups only give what
    was loaded: the start that [GetFlowStart] finds under a name is the
    start of a loaded flow of that name, the block that [GetModule] finds
    under an identifier has that identifier and belongs to a loaded flow,
    and a call that [StartCall] returns starts at the start block of a
    loaded flow and comes without error (flows taken as [Dedeprecate]
    returned them). *)
Theorem configured_lookups (ops : list setup) :
  (∀ name start,
     GetFlowStart name (configured' ops) = Some start →
     ∃ g, DoLoadFlow g ∈ ops ∧ MetadataName (Dedeprecate g) = name ∧
          start = Start (Dedeprecate g)) ∧
  (∀ id m,
     GetModule id (configured' ops) = Some m →
     ID m = id ∧ ∃ g, DoLoadFlow g ∈ ops ∧ m ∈ Modules (Dedeprecate g)) ∧
  (∀ config call err,
     StartCall' config (configured' ops) = (Some call, err) →
     err = None ∧
     ∃ g, DoLoadFlow g ∈ ops ∧
          call = newCall config (configured' ops) (Start (Dedeprecate g))).
Proof.
  destruct (configured_maps ops) as (Hflows & Hmodules & Htel).
  split; [|split].
  - intros name start. unfold GetFlowStart.
    destruct (flows (configured' ops) !! name) as [f|] eqn:Hf; [|done].
    intros [= <-]. destruct (Hflows _ _ Hf) as (Hname & g & Hg & ->). eauto.
  - intros id m. apply Hmodules.
  - intros config call err. unfold simulator.StartCall.
    case_decide; [done|].
    destruct (telFlow (configured' ops) !! DestNumber config) as [f|] eqn:Hf;
      [|done].
    intros [= <- <-]. split; [done|].
    destruct (Htel _ _ Hf) as (g & Hg & ->). eauto.
Qed.

(** X14. On a simulator set up from [New], [Encrypt] applies the
    encryptor of the last [SetEncryption], and when there was none it
    returns the bytes of its input unchanged; loading flows and
    registering numbers do not change it. *)
Theorem configured_Encrypt (ops : list setup) (input keyID : string)
    (cert : list byte) :
  (Forall (λ op, ∀ e, op ≠ DoSetEncryption e) ops →
   Encrypt input keyID cert (configured' ops) = list_byte_of_string input ∧
   string_of_list_byte (Encrypt input keyID cert (configured' ops)) = input) ∧
  (∀ before e after,
     ops = before ++ DoSetEncryption e :: after →
     Forall (λ op, ∀ e', op ≠ DoSetEncryption e') after →
     Encrypt input keyID cert (configured' ops) = e input keyID cert).
Proof.
  assert (∀ after cs,
            Forall (λ op, ∀ e', op ≠ DoSetEncryption e') after →
            encrypt (foldl (do_setup Dedeprecate) cs after) = encrypt cs)
    as Hkeep.
  { induction after as [|op after IH]; intros cs Hall; [done|].
    inversion Hall as [|? ? Hop Hafter]; subst. simpl. rewrite IH by done.
    destruct op as [g|tel name|e]; simpl; [done| |by destruct (Hop e)].
    unfold SetStartingFlowFor. by destruct (flows cs !! name). }
  unfold Encrypt, simulator.configured. split.
  - intros Hnone. rewrite Hkeep by done. simpl.
    split; [done | apply string_of_list_byte_of_string].
  - intros before e after -> Hafter. rewrite foldl_app. simpl.
    by rewrite Hkeep.
Qed.

End simulator_facts.

(** ** Lambdas *)

Lemma prefix_app (p s : string) :
  String.prefix p s = true ↔ ∃ post, s = p +:+ post.
Proof.
  revert p. induction s as [|d s IH]; intros [|c p]; simpl.
  - split; [by exists "" | done].
  - split; [done | by intros [post [=]]].
  - split; [by exists (String d s) | done].
  - destruct (ascii_dec c d) as [->|Hne].
    + rewrite IH. split; intros [post Hpost]; exists post.
      * by rewrite string_app_cons, <- Hpost.
      * rewrite string_app_cons in Hpost. by injection Hpost.
    + split; [done|]. intros [post Hpost].
      rewrite string_app_cons in Hpost. injection Hpost as <- _. done.
Qed.

Lemma Contains_nil (sub : string) :
  Contains "" sub = String.prefix sub "" || false.
Proof. reflexivity. Qed.

Lemma Contains_cons (c : ascii) (s sub : string) :
  Contains (String c s) sub = String.prefix sub (String c s) || Contains s sub.
Proof. reflexivity. Qed.

(** [Contains] is the substring test. *)
Lemma Contains_substring (s sub : string) :
  Contains s sub = true ↔ ∃ pre post, s = pre +:+ sub +:+ post.
Proof.
  induction s as [|c s IH].
  - rewrite Contains_nil, orb_false_r, prefix_app. split.
    + intros [post ->]. by exists "", post.
    + intros ([|d pre] & post & Heq); [by exists post | done].
  - rewrite Contains_cons, orb_true_iff, prefix_app, IH. split.
    + intros [[post ->] | (pre & post & ->)].
      * by exists "", post.
      * by exists (String c pre), post.
    + intros ([|d pre] & post & Heq).
      * left. by exists post.
      * right. rewrite string_app_cons in Heq. injection Heq as <- ->.
        by exists pre, post.
Qed.

Section lambdas_facts.
Variable Lambda : Type.

Lemma GetLambda_None (entries : list (string * Lambda)) arn :
  GetLambda Lambda entries arn = None ↔
  Forall (λ kv, Contains arn kv.1 = false) entries.
Proof.
  induction entries as [|[k v] rest IH]; simpl.
  - split; [constructor | done].
  - destruct (Contains arn k) eqn:Hk.
    + split; [done|]. intros Hall. inversion Hall; simpl in *; congruence.
    + rewrite IH. split; [by constructor | by inversion 1].
Qed.

Lemma GetLambda_Some (entries : list (string * Lambda)) arn fn :
  GetLambda Lambda entries arn = Some fn →
  ∃ k, (k, fn) ∈ entries ∧ Contains arn k = true.
Proof.
  induction entries as [|[k v] rest IH]; simpl; [done|].
  destruct (Contains arn k) eqn:Hk.
  - intros [= <-]. exists k. split; [by left | done].
  - intros (k' & Hin & Hk')%IH. exists k'. split; [by right | done].
Qed.

Lemma GetLambda_unmatched (lambdas : gmap string Lambda)
    (entries : list (string * Lambda)) (arn : string) :
  entries ≡ₚ map_to_list lambdas →
  GetLambda Lambda entries arn = None ↔
  ∀ k fn, lambdas !! k = Some fn → ¬ ∃ pre post, arn = pre +:+ k +:+ post.
Proof.
  intros Horder.
  assert (∀ k fn, (k, fn) ∈ entries ↔ lambdas !! k = Some fn) as Hentries.
  { intros k fn. rewrite Horder. apply elem_of_map_to_list. }
  rewrite GetLambda_None, Forall_forall. split.
  - intros Hall k fn Hk Hsub%Contains_substring.
    apply Hentries in Hk. apply Hall in Hk. simpl in Hk. congruence.
  - intros Hno [k fn] Hin%Hentries. simpl.
    destruct (Contains arn k) eqn:Hk; [|done].
    destruct (Hno k fn Hin). by apply Contains_substring.
Qed.

Lemma GetLambda_matched (lambdas : gmap string Lambda)
    (entries : list (string * Lambda)) (arn : string) fn :
  entries ≡ₚ map_to_list lambdas →
  GetLambda Lambda entries arn = Some fn →
  ∃ k pre post, lambdas !! k = Some fn ∧ arn = pre +:+ k +:+ post.
Proof.
  intros Horder
    (k & Hin & (pre & post & ->)%Contains_substring)%GetLambda_Some.
  exists k, pre, post. split; [|done].
  apply elem_of_map_to_list. by rewrite <- Horder.
Qed.

Lemma GetLambda_only_match (lambdas : gmap string Lambda)
    (entries : list (string * Lambda)) (arn : string) k fn pre post :
  entries ≡ₚ map_to_list lambdas →
  lambdas !! k = Some fn → arn = pre +:+ k +:+ post →
  (∀ k' pre' post', is_Some (lambdas !! k') → arn = pre' +:+ k' +:+ post' →
                    k' = k) →
  GetLambda Lambda entries arn = Some fn.
Proof.
  intros Horder Hk Harn Hunique.
  destruct (GetLambda Lambda entries arn) as [fn'|] eqn:Hget.
  - destruct (GetLambda_matched _ _ _ _ Horder Hget)
      as (k' & pre' & post' & Hk' & Harn').
    assert (k' = k) as -> by (by eapply Hunique). congruence.
  - destruct (proj1 (GetLambda_unmatched _ _ _ Horder) Hget k fn Hk).
    by exists pre, post.
Qed.

(** X16. [GetLambda], whatever the order in which the loop visits the
    registered lambdas: it returns no handler exactly when no registered
    name occurs in the ARN; a handler it returns is registered under a
    name that occurs in the ARN; when exactly one registered name occurs
    in the ARN, it returns the handler of that name; and once a handler is
    registered under the empty name, every ARN finds a handler. *)
Theorem GetLambda_partial_match (lambdas : gmap string Lambda)
    (entries : list (string * Lambda)) (arn : string) :
  entries ≡ₚ map_to_list lambdas →
  (GetLambda Lambda entries arn = None ↔
   ∀ k fn, lambdas !! k = Some fn →
           ¬ ∃ pre post, arn = pre +:+ k +:+ post) ∧
  (∀ fn, GetLambda Lambda entries arn = Some fn →
         ∃ k pre post, lambdas !! k = Some fn ∧ arn = pre +:+ k +:+ post) ∧
  (∀ k fn pre post,
     lambdas !! k = Some fn → arn = pre +:+ k +:+ post →
     (∀ k' pre' post', is_Some (lambdas !! k') → arn = pre' +:+ k' +:+ post' →
                       k' = k) →
     GetLambda Lambda entries arn = Some fn) ∧
  (is_Some (lambdas !! "") → is_Some (GetLambda Lambda entries arn)).
Proof.
  intros Horder. split; [by apply GetLambda_unmatched|].
  split; [intros fn; by apply GetLambda_matched|]. split.
  - intros k fn pre post. by apply GetLambda_only_match.
  - intros [fn Hfn].
    destruct (GetLambda Lambda entries arn) eqn:Hget; [done|].
    destruct (proj1 (GetLambda_unmatched _ _ _ Horder) Hget "" fn Hfn).
    by exists "", arn.
Qed.

Variable validateLambda : Lambda → option error.
Variable invokeLambda : Lambda → string → string * option error * option error.

(** X17. [RegisterLambda] registers nothing and returns the error when the
    validation of the handler fails.  When it passes, the handler is
    registered under the name (replacing a handler of that name, leaving
    the others), and from then on [InvokeLambda] with an ARN in which the
    name occurs never reports an unknown lambda: it invokes a registered
    handler, the one just registered when no other registered name occurs
    in the ARN.  With nothing registered, [InvokeLambda] reports the
    unknown lambda for every name and invokes nothing. *)
Theorem RegisterLambda_InvokeLambda (name : string) (fn : Lambda)
    (lambdas : gmap string Lambda) (withJSON : string) :
  (∀ err, validateLambda fn = Some err →
          RegisterLambda Lambda validateLambda name fn lambdas =
            (lambdas, Some err)) ∧
  (validateLambda fn = None →
   ∃ lambdas',
     RegisterLambda Lambda validateLambda name fn lambdas = (lambdas', None) ∧
     lambdas' !! name = Some fn ∧
     (∀ k, k ≠ name → lambdas' !! k = lambdas !! k) ∧
     ∀ entries arn pre post,
       entries ≡ₚ map_to_list lambdas' → arn = pre +:+ name +:+ post →
       ∃ fn',
         GetLambda Lambda entries arn = Some fn' ∧
         InvokeLambda Lambda invokeLambda entries arn withJSON =
           invokeLambda fn' withJSON ∧
         ((∀ k pre' post', is_Some (lambdas !! k) → k ≠ name →
                           arn ≠ pre' +:+ k +:+ post') →
          fn' = fn)) ∧
  (∀ entries named,
     entries ≡ₚ map_to_list (∅ : gmap string Lambda) →
     InvokeLambda Lambda invokeLambda entries named withJSON =
       ("", None, Some (errorString ("unknown lambda: " +:+ named)))).
Proof.
  unfold RegisterLambda. split; [by intros err ->|]. split.
  - intros ->. eexists. split; [reflexivity|].
    split; [apply lookup_insert_eq|].
    split; [intros k Hk; by apply lookup_insert_ne|].
    intros entries arn pre post Horder Harn.
    destruct (GetLambda Lambda entries arn) as [fn'|] eqn:Hget.
    + exists fn'. split; [done|]. split.
      { unfold InvokeLambda. by rewrite Hget. }
      intros Hother.
      destruct (GetLambda_matched _ _ _ _ Horder Hget)
        as (k & pre' & post' & Hk & Harn').
      destruct (decide (k = name)) as [->|Hne].
      * rewrite lookup_insert_eq in Hk. congruence.
      * rewrite lookup_insert_ne in Hk by done.
        by destruct (Hother k pre' post' (mk_is_Some _ _ Hk) Hne).
    + destruct (proj1 (GetLambda_unmatched _ _ _ Horder) Hget name fn).
      * apply lookup_insert_eq.
      * by exists pre, post.
  - intros entries named Horder. rewrite map_to_list_empty in Horder.
    apply Permutation_nil_r in Horder as ->. reflexivity.
Qed.

End lambdas_facts.

Lemma GetLambda_partial_match_witness :
  GetLambda string [("checkBalance", "handler1"); ("lookup", "handler2")]
    "arn:aws:lambda:eu-west-2:1:function:lookup-prod" = Some "handler2" ∧
  GetLambda string [("checkBalance", "handler1"); ("lookup", "handler2")]
    "arn:aws:lambda:eu-west-2:1:function:other" = None.
Proof.
  assert ([("checkBalance", "handler1"); ("lookup", "handler2")] ≡ₚ
          map_to_list
            (<["checkBalance" := "handler1"]> {["lookup" := "handler2"]}
               : gmap string string)) as Horder.
  { by vm_compute. }
  assert (∀ k : string,
            is_Some ((<["checkBalance" := "handler1"]> {["lookup" := "handler2"]}
                        : gmap string string) !! k) →
            k = "checkBalance" ∨ k = "lookup") as Hkeys.
  { intros k [fn Hk]. destruct (decide (k = "checkBalance")); [by left|].
    rewrite lookup_insert_ne in Hk by done.
    destruct (decide (k = "lookup")); [by right|].
    by rewrite lookup_singleton_ne in Hk. }
  split.
  - destruct (GetLambda_partial_match string _ _
                "arn:aws:lambda:eu-west-2:1:function:lookup-prod" Horder)
      as (_ & _ & Honly & _).
    apply (Honly "lookup" "handler2" "arn:aws:lambda:eu-west-2:1:function:" "-prod");
      [reflexivity | reflexivity |].
    intros k pre post [-> | ->]%Hkeys Harn; [|done].
    assert (Contains "arn:aws:lambda:eu-west-2:1:function:lookup-prod"
              "checkBalance" = true) as Hcontains
      by (apply Contains_substring; eauto).
    by vm_compute in Hcontains.
  - destruct (GetLambda_partial_match string _ _
                "arn:aws:lambda:eu-west-2:1:function:other" Horder)
      as (Hnone & _).
    apply Hnone. intros k fn Hk (pre & post & Harn).
    assert (Contains "arn:aws:lambda:eu-west-2:1:function:other" k = true)
      as Hcontains by (apply Contains_substring; eauto).
    destruct (Hkeys k (mk_is_Some _ _ Hk)) as [-> | ->];
      by vm_compute in Hcontains.
Defined.

Lemma RegisterLambda_InvokeLambda_witness :
  let validate := λ fn : string,
    if decide (fn = "") then Some (errorString "not a function") else None in
  let invoke := λ (fn withJSON : string),
    (fn +:+ withJSON, @None error, @None error) in
  RegisterLambda string validate "lookup" "" ∅ =
    (∅, Some (errorString "not a function")) ∧
  RegisterLambda string validate "lookup" "handler:" ∅ =
    ({["lookup" := "handler:"]}, None) ∧
  InvokeLambda string invoke [("lookup", "handler:")]
    "arn:aws:lambda:function:lookup-prod" "{}" = ("handler:{}", None, None).
Proof.
  intros validate invoke.
  destruct (RegisterLambda_InvokeLambda string validate invoke "lookup" "" ∅ "{}")
    as (Hinvalid & _).
  destruct (RegisterLambda_InvokeLambda string validate invoke "lookup" "handler:"
              ∅ "{}") as (_ & Hvalid & _).
  destruct (Hvalid eq_refl) as (lambdas' & Hregister & _ & _ & Hinvoke).
  split; [by apply Hinvalid|]. split; [reflexivity|].
  injection Hregister as <-.
  destruct (Hinvoke [("lookup", "handler:")]
              "arn:aws:lambda:function:lookup-prod"
              "arn:aws:lambda:function:" "-prod")
    as (fn' & _ & -> & Honly); [by vm_compute | reflexivity |].
  rewrite Honly; [reflexivity|].
  intros k pre post [fn Hk]. by rewrite lookup_empty in Hk.
Defined.

Lemma LoadFlow_SetStartingFlowFor_StartCall_witness :
  let main := {| Modules := []; Start := "first-block"; MetadataName := "main" |} in
  let main2 := {| Modules := []; Start := "other-block"; MetadataName := "main" |} in
  let StartCall := simulator.StartCall string id ModuleID (λ _ _ start, start) in
  ∃ cs1,
    simulator.SetStartingFlowFor "+441234567890" "main"
      (simulator.LoadFlow id main simulator.New) = (cs1, None) ∧
    StartCall "+441234567890" cs1 = (Some "first-block", None) ∧
    StartCall "+441234567890" (simulator.LoadFlow id main2 cs1) =
      (Some "first-block", None) ∧
    simulator.GetFlowStart "main" (simulator.LoadFlow id main2 cs1) =
      Some "other-block".
Proof.
  intros main main2 StartCall.
  destruct (LoadFlow_SetStartingFlowFor_StartCall id string id ModuleID
              (λ _ _ start, start) main "+441234567890" simulator.New)
    as (cs1 & Hset & Hstart & Hlater); [discriminate|].
  exists cs1. split; [exact Hset|]. split; [exact Hstart|].
  split; [exact (Hlater main2)|].
  unfold simulator.GetFlowStart, simulator.LoadFlow. simpl.
  by rewrite lookup_insert_eq.
Defined.

(** ** What the transfer matchers look at *)

(** X15. The transfer matchers look at the kind of the event and at the
    name it carries, never at the ARN: two queue transfers (two flow
    transfers) to the same name get the same answer.  A matcher that
    passes is applicable and reports the asserted name as the one
    observed.  No event is applicable to both a queue-transfer and a
    flow-transfer matcher. *)
Theorem transfer_matchers_by_name (mq : flowtest.queueTransferMatcher)
    (mf : flowtest.flowTransferMatcher) :
  (∀ arn arn' name,
     flowtest.queueTransferMatcher_match mq (QueueTransferEvent arn name) =
     flowtest.queueTransferMatcher_match mq (QueueTransferEvent arn' name)) ∧
  (∀ arn arn' name,
     flowtest.flowTransferMatcher_match mf (FlowTransferEvent arn name) =
     flowtest.flowTransferMatcher_match mf (FlowTransferEvent arn' name)) ∧
  (∀ evt applicable got,
     flowtest.queueTransferMatcher_match mq evt = Some (applicable, true, got) →
     applicable = true ∧ got = flowtest.queueName mq ∧
     ∃ arn, evt = QueueTransferEvent arn (flowtest.queueName mq)) ∧
  (∀ evt applicable got,
     flowtest.flowTransferMatcher_match mf evt = Some (applicable, true, got) →
     applicable = true ∧ got = flowtest.flowName mf ∧
     ∃ arn, evt = FlowTransferEvent arn (flowtest.flowName mf)) ∧
  (∀ evt pass got pass' got',
     flowtest.queueTransferMatcher_match mq evt = Some (true, pass, got) →
     flowtest.flowTransferMatcher_match mf evt = Some (true, pass', got') →
     False).
Proof.
  split; [done|]. split; [done|]. split; [|split].
  - intros [arn name|arn name|tel|kind] applicable got; simpl; try done.
    intros [= <- Hpass <-]. apply bool_decide_eq_true in Hpass as ->. eauto.
  - intros [arn name|arn name|tel|kind] applicable got; simpl; try done.
    intros [= <- Hpass <-]. apply bool_decide_eq_true in Hpass as ->. eauto.
  - by intros [arn name|arn name|tel|kind] pass got pass' got'.
Qed.

(** ** When Transfer fails *)

(** X19. A Transfer block makes [transfer.Run] return an error exactly in
    these cases: the target is Flow and there is no ContactFlowId
    parameter; the target is PhoneNumber and BlindTransfer is missing or
    not a boolean, or PhoneNumber is missing or not a string; the target
    is none of Flow, Queue and PhoneNumber.  The call's state plays no
    part in it.  For the last case the error names the target, and for
    PhoneNumber the BlindTransfer parameter is checked first. *)
Theorem transfer_Run_error_cases (m : Module_) :
  flow.Type_ m = ModuleTransfer →
  ∀ (St : Type) (C : CallConnector St) (call : St),
    ((∃ call' next e, transfer_Run m call = Returns call' next (Some e)) ↔
     (Target m = TargetFlow ∧ (Get (Parameters m) "ContactFlowId").2 = false) ∨
     (Target m = TargetPhoneNumber ∧
      ((Get (Parameters m) "BlindTransfer").2 = false ∨
       as_bool (Value (Get (Parameters m) "BlindTransfer").1) = None ∨
       (Get (Parameters m) "PhoneNumber").2 = false ∨
       as_string (Value (Get (Parameters m) "PhoneNumber").1) = None)) ∨
     (Target m ≠ TargetFlow ∧ Target m ≠ TargetQueue ∧
      Target m ≠ TargetPhoneNumber)) ∧
    (Target m ≠ TargetFlow → Target m ≠ TargetQueue →
     Target m ≠ TargetPhoneNumber →
     transfer_Run m call =
       Returns call None
         (Some (errorString ("unhandled transfer target: " +:+ Target m)))) ∧
    (Target m = TargetPhoneNumber →
     (Get (Parameters m) "BlindTransfer").2 = false ∨
     as_bool (Value (Get (Parameters m) "BlindTransfer").1) = None →
     transfer_Run m call =
       Returns call None (Some (errorString "missing BlindTransfer parameter"))).
Proof.
  intros Htype St C call. unfold transfer_Run. type_check_passes.
  split; [|split].
  - destruct (decide (Target m = TargetFlow)) as [Hflow|Hflow].
    { destruct (Get (Parameters m) "ContactFlowId") as [cfid [|]]; simpl.
      - split.
        + intros (call' & next & e & Hrun).
          repeat (case_match; try discriminate).
        + intros [[_ [=]] | [[Hphone _] | (Hne & _)]]; [|done].
          rewrite Hflow in Hphone. discriminate.
      - split; [by left | eauto]. }
    destruct (decide (Target m = TargetQueue)) as [Hqueue|Hqueue].
    { split.
      - intros (call' & next & e & Hrun).
        repeat (case_match; try discriminate).
      - intros [[Hf _] | [[Hphone _] | (_ & Hne & _)]]; [done| |done].
        rewrite Hqueue in Hphone. discriminate. }
    destruct (decide (Target m = TargetPhoneNumber)) as [Hphone|Hphone].
    { destruct (Get (Parameters m) "BlindTransfer") as [blind [|]]; simpl;
        [|split; [intros _; right; left; split; [done|by left] | eauto]].
      destruct (as_bool (Value blind)) as [b|]; simpl;
        [|split; [intros _; right; left; split; [done|right; by left] | eauto]].
      destruct (Get (Parameters m) "PhoneNumber") as [num [|]]; simpl;
        [|split; [intros _; right; left; split; [done|right; right; by left]
                 | eauto]].
      destruct (as_string (Value num)) as [tel|]; simpl;
        [|split; [intros _; right; left; split; [done|by repeat right] | eauto]].
      split.
      - intros (call' & next & e & Hrun). by destruct b.
      - intros [[Hf _] | [[_ [[=] | [[=] | [[=] | [=]]]]] | (_ & _ & Hne)]];
          done. }
    split; [intros _; by repeat right | eauto].
  - intros Hflow Hqueue Hphone. by rewrite !decide_False.
  - intros Hphone Hblind. rewrite Hphone. simpl.
    destruct (Get (Parameters m) "BlindTransfer") as [blind [|]]; simpl in *;
      [|done].
    destruct Hblind as [[=] | ->]. done.
Qed.

Lemma transfer_Run_error_cases_witness :
  transfer_Run (block "Transfer" "Digits" [branch "Error" "e"] [])
    testCallState_init =
    Returns testCallState_init None
      (Some (errorString "unhandled transfer target: Digits")) ∧
  transfer_Run
    (block "Transfer" "PhoneNumber" []
       [parameter "PhoneNumber" (JString "+441234567890")])
    testCallState_init =
    Returns testCallState_init None
      (Some (errorString "missing BlindTransfer parameter")).
Proof.
  split.
  - destruct (transfer_Run_error_cases
                (block "Transfer" "Digits" [branch "Error" "e"] []) eq_refl
                testCallState _ testCallState_init) as (_ & Hother & _).
    apply Hother; discriminate.
  - destruct (transfer_Run_error_cases
                (block "Transfer" "PhoneNumber" []
                   [parameter "PhoneNumber" (JString "+441234567890")]) eq_refl
                testCallState _ testCallState_init) as (_ & _ & Hblind).
    apply Hblind; [reflexivity | by left].
Defined.

(** ** The connector of the tests *)

(** X18. How the test connector answers.  [Receive] records the count,
    the timeout and the terminator it was asked with and reports input
    received exactly when the prepared input is neither empty nor the
    word Timeout; it then hands back the prepared input, and it hands back
    the word Timeout itself, as not received, when that is the prepared
    input.  [GetFlowStart] answers [nil] exactly for a name that is absent
    from the table or mapped to the empty identifier.  [GetSystem] after
    [SetSystem] reads the value written for that key and what was there
    for any other, and neither the stores of attributes nor the event log
    are touched; [Send] keeps only the last prompt and [Emit] appends in
    order. *)
Theorem testCallState_answers (st : testCallState) :
  (∀ count timeout terminator,
     ∃ st' input ok,
       Receive count timeout terminator st = (st', (input, ok)) ∧
       rcv_count st' = count ∧ rcv_timeout st' = timeout ∧
       rcv_terminator st' = terminator ∧
       (ok = true ↔ i st ≠ "" ∧ i st ≠ "Timeout") ∧
       input = i st ∧
       system st' = system st ∧ events st' = events st ∧ o st' = o st) ∧
  (∀ flowName,
     GetFlowStart flowName st = None ↔
     flowStart st !! flowName = None ∨ flowStart st !! flowName = Some "") ∧
  (∀ flowName start,
     GetFlowStart flowName st = Some start ↔
     flowStart st !! flowName = Some start ∧ start ≠ "") ∧
  (∀ key value key',
     GetSystem key' (SetSystem key value st) =
       (if decide (key = key') then Some value else GetSystem key' st) ∧
     GetExternal key' (SetSystem key value st) = GetExternal key' st ∧
     GetContactData key' (SetSystem key value st) = GetContactData key' st ∧
     events (SetSystem key value st) = events st) ∧
  (∀ s1 ssml1 s2 ssml2,
     o (Send s2 ssml2 (Send s1 ssml1 st)) = s2 ∧
     oSSML (Send s2 ssml2 (Send s1 ssml1 st)) = ssml2) ∧
  (∀ evt1 evt2, events (Emit evt2 (Emit evt1 st)) = events st ++ [evt1; evt2]).
Proof.
  split; [|split; [|split; [|split; [|split]]]].
  - intros count timeout terminator. simpl. unfold testCallState_Receive.
    destruct (decide (i st = "")) as [Hempty|Hinput].
    + eexists _, _, _. split; [reflexivity|]. simpl.
      do 3 (split; [done|]). split; [|done].
      split; [done | by intros [? _]].
    + eexists _, _, _. split; [reflexivity|]. simpl.
      do 3 (split; [done|]). split; [|done].
      rewrite bool_decide_eq_true. split; [done | by intros [_ ?]].
  - intros flowName. simpl. unfold testCallState_GetFlowStart.
    destruct (flowStart st !! flowName) as [start|]; simpl.
    + case_decide as Hstart.
      * subst. split; [by right | done].
      * split; [done|]. by intros [[=] | [= ->]].
    + split; [by left | done].
  - intros flowName start. simpl. unfold testCallState_GetFlowStart.
    destruct (flowStart st !! flowName) as [start'|]; simpl.
    + case_decide as Hstart.
      * subst. split; [done|]. by intros [[= <-] ?].
      * split; [by intros [= <-] | by intros [[= <-] _]].
    + split; [done | by intros [[=] _]].
  - intros key value key'. simpl. unfold testCallState_GetSystem. simpl.
    split; [apply lookup_insert | done].
  - done.
  - intros evt1 evt2. simpl. by rewrite <- app_assoc.
Qed.
